(** * f007th_send: dispatch of sensor readings to a REST / InfluxDB server

    A shallow embedding of [src/f007th_send.cpp]: the response capture
    callback [write_callback], the dispatcher [send] and the message loop of
    [main].  Effects (stream output, libcurl calls, stores through the
    [response_buffer] pointer) are collected in a trace; the two transmission
    buffers and the change tracker are threaded as state. *)

From Stdlib Require Import ZArith String Ascii List Bool Lia.
From Stdlib Require Import Strings.Byte.
Import ListNotations.
Local Open Scope string_scope.
Local Open Scope list_scope.
Local Open Scope Z_scope.

(** ** Constants and collaborators declared in headers outside the sources *)

(** The macros of [RFReceiver.hpp] / [SensorsData.hpp] used by the program,
    together with the width of [size_t] on the target. *)
Class Platform := {
  SIZE_BITS : Z;
  SEND_DATA_BUFFER_SIZE : Z;
  SERVER_RESPONSE_BUFFER_SIZE : Z;
  VERBOSITY_INFO : Z;
  VERBOSITY_PRINT_DETAILS : Z;
  VERBOSITY_PRINT_JSON : Z;
  VERBOSITY_PRINT_CURL : Z;
  VERBOSITY_PRINT_UNDECODED : Z;
  VERBOSITY_PRINT_STATISTICS : Z;
  TEMPERATURE_IS_CHANGED : Z;
  HUMIDITY_IS_CHANGED : Z;
  BATTERY_STATUS_IS_CHANGED : Z
}.

Inductive ServerType := REST | InfluxDB.

Inductive FILE := stdout | stderr | log.

Definition ServerType_eqb (a b : ServerType) : bool :=
  match a, b with
  | REST, REST | InfluxDB, InfluxDB => true
  | _, _ => false
  end.

(** The methods of [ReceivedMessage] and [SensorsData] the program calls.
    The two encoders receive the outbound buffer and its capacity and return
    the [int] result together with the buffer as they leave it. *)
Class Receiver (Msg Data Sensors : Type) := {
  isEmpty : Msg -> bool;
  isUndecoded : Msg -> bool;
  isValid : Msg -> bool;
  getDecodingStatus : Msg -> Z;
  getData : Msg -> Data;
  print : Msg -> FILE -> Z -> bool;
  json : Msg -> list byte -> Z -> bool -> bool -> Z * list byte;
  influxDB : Msg -> list byte -> Z -> Z -> bool -> Z * list byte;
  update : Sensors -> Data -> Z * Sensors
}.

(** ** libcurl as seen by the program *)

Definition CURLE_OK : Z := 0.
Definition CURLE_WRITE_ERROR : Z := 23.
Definition CURLE_ABORTED_BY_CALLBACK : Z := 42.

Inductive CurlOption :=
| CURLOPT_VERBOSE (on : Z)
| CURLOPT_HTTPHEADER (headers : list string)
| CURLOPT_URL (url : string)
| CURLOPT_CUSTOMREQUEST (method : string)
| CURLOPT_POSTFIELDS (body : list byte)
| CURLOPT_WRITEFUNCTION
| CURLOPT_WRITEDATA.

Inductive CurlCall :=
| EasyInit (handle : bool)
| EasySetopt (o : CurlOption)
| SlistAppend (header : string)
| EasyPerform (rc : Z)
| EasyGetinfoResponseCode (http_code : Z)
| EasyCleanup
| SlistFreeAll.

(** One invocation of the write function by libcurl: [ptr] points at
    [size * nmemb] bytes. *)
Record Chunk := {
  ptr : list byte;
  size : Z;
  nmemb : Z
}.

(** What the transport does during one call of [send]: whether
    [curl_easy_init] yields a handle, the body data handed to the write
    function, the result of the transfer itself and the response code
    reported by [curl_easy_getinfo]. *)
Record Exchange := {
  handle : bool;
  chunks : list Chunk;
  transfer_code : Z;
  response_code : Z
}.

(** ** Effects *)

Inductive Arg :=
| AStr (s : string)
| AInt (z : Z)
| AStrerror (rc : Z).

Section Program.

Context {P : Platform}.
Context {Msg Data Sensors : Type} {R : Receiver Msg Data Sensors}.

Inductive Effect :=
| Fputs (s : string) (f : FILE)
| FputsResponse (f : FILE)
| Fputc (c : ascii) (f : FILE)
| Fprintf (f : FILE) (format : string) (args : list Arg)
| Fflush (f : FILE)
| MessagePrint (m : Msg) (f : FILE) (verbosity : Z)
| PrintStatistics
| CallSend (m : Msg) (server_type : ServerType) (changed : Z)
| Curl (c : CurlCall)
| StoreResponse (index : Z) (b : byte).

(** [response_buffer] is the memory seen through the pointer of that name,
    addressed by the offset from it; the block allocated in [main] covers the
    offsets [0 .. SERVER_RESPONSE_BUFFER_SIZE - 1]. *)
Record World := {
  data_buffer : list byte;
  response_buffer : Z -> byte;
  sensorsData : Sensors
}.

Record Res (A : Type) := mkRes {
  value : A;
  world : World;
  trace : list Effect
}.
Arguments mkRes {A}.
Arguments value {A}.
Arguments world {A}.
Arguments trace {A}.

Definition M (A : Type) : Type := World -> Res A.

Definition ret {A} (a : A) : M A := fun w => mkRes a w [].

Definition bind {A B} (c : M A) (k : A -> M B) : M B :=
  fun w =>
    let r1 := c w in
    let r2 := k (value r1) (world r1) in
    mkRes (value r2) (world r2) (trace r1 ++ trace r2).

Notation "x <- c1 ;; c2" := (bind c1 (fun x => c2))
  (at level 61, c1 at next level, right associativity).
Notation "c1 ;;; c2" := (bind c1 (fun _ => c2))
  (at level 61, right associativity).

Definition emit (e : Effect) : M unit := fun w => mkRes tt w [e].

Definition when (b : bool) (c : M unit) : M unit := if b then c else ret tt.

Definition LF : string := String (ascii_of_nat 10) EmptyString.

(** [(verbosity & FLAG) != 0] *)
Definition flag (verbosity FLAG : Z) : bool := negb (Z.land verbosity FLAG =? 0).

(** Conversion to [size_t] and arithmetic in it. *)
Definition to_size_t (z : Z) : Z := z mod 2 ^ SIZE_BITS.

(** [response_buffer[index] = b] *)
Definition store_response (index : Z) (b : byte) : M unit :=
  fun w =>
    mkRes tt
      {| data_buffer := data_buffer w;
         response_buffer := fun i => if i =? index then b else response_buffer w i;
         sensorsData := sensorsData w |}
      [StoreResponse index b].

Definition load_response (index : Z) : M byte :=
  fun w => mkRes (response_buffer w index) w [].

(** [memcpy(response_buffer + dst, src, n)], byte by byte. *)
Fixpoint memcpy (dst : Z) (src : list byte) (n : nat) : M unit :=
  match n with
  | O => ret tt
  | S n' =>
      store_response dst (hd x00 src) ;;;
      memcpy (dst + 1) (tl src) n'
  end.

Definition set_data_buffer (f : list byte -> Z * list byte) : M Z :=
  fun w =>
    let r := f (data_buffer w) in
    mkRes (fst r)
      {| data_buffer := snd r;
         response_buffer := response_buffer w;
         sensorsData := sensorsData w |}
      [].

Definition get_data_buffer : M (list byte) :=
  fun w => mkRes (data_buffer w) w [].

(** [data_buffer[0] = '\0'] *)
Definition clear_data_buffer (b : list byte) : Z * list byte :=
  (0, match b with [] => [] | _ :: t => x00 :: t end).

(** ** [struct PutData] and [write_callback] *)

Record PutData := {
  data : Z;
  len : Z;
  response_data : Z;
  response_len : Z;
  verbose : bool
}.

Definition write_callback (ptr : list byte) (size nmemb : Z) (d : PutData)
  : M (Z * PutData) :=
  let curl_size := to_size_t (nmemb * size) in
  let to_copy :=
    if response_len d <? curl_size then response_len d else curl_size in
  when (verbose d)
    (emit (Fprintf stderr ("receiving %d bytes..." ++ LF)%string [AInt to_copy])) ;;;
  if 0 <? to_copy then
    memcpy (response_data d) ptr (Z.to_nat to_copy) ;;;
    ret (to_copy,
         {| data := data d;
            len := len d;
            response_data := response_data d + to_copy;
            response_len := to_size_t (response_len d - to_copy);
            verbose := verbose d |})
  else ret (size, d).

(** libcurl hands the chunks to the write function in turn; a return value
    different from the number of bytes passed aborts the transfer. *)
Fixpoint deliver (cs : list Chunk) (d : PutData) : M (bool * PutData) :=
  match cs with
  | [] => ret (true, d)
  | c :: cs' =>
      r <- write_callback (ptr c) (size c) (nmemb c) d ;;
      if fst r =? size c * nmemb c then deliver cs' (snd r)
      else ret (false, snd r)
  end.

Definition curl_easy_perform (x : Exchange) (d : PutData) : M (Z * PutData) :=
  r <- deliver (chunks x) d ;;
  let rc := if fst r then transfer_code x else CURLE_WRITE_ERROR in
  emit (Curl (EasyPerform rc)) ;;;
  ret (rc, snd r).

(** The write function applied to an arbitrary sequence of chunks, whatever
    it returns. *)
Fixpoint callbacks (cs : list Chunk) (d : PutData) : M PutData :=
  match cs with
  | [] => ret d
  | c :: cs' =>
      r <- write_callback (ptr c) (size c) (nmemb c) d ;;
      callbacks cs' (snd r)
  end.

(** ** [send] *)

Definition full_mask : Z :=
  Z.lor (Z.lor TEMPERATURE_IS_CHANGED HUMIDITY_IS_CHANGED) BATTERY_STATUS_IS_CHANGED.

(** The status the server is expected to answer with. *)
Definition expected_code (server_type : ServerType) : Z :=
  if ServerType_eqb server_type InfluxDB then 204 else 200.

(** The call of the encoder of the target's protocol on [data_buffer]. *)
Definition encode (message : Msg) (server_type : ServerType) (changed verbosity : Z)
  (buffer : list byte) : Z * list byte :=
  if ServerType_eqb server_type InfluxDB then
    influxDB message buffer SEND_DATA_BUFFER_SIZE changed
      (flag verbosity VERBOSITY_PRINT_JSON)
  else
    json message buffer SEND_DATA_BUFFER_SIZE true
      (flag verbosity VERBOSITY_PRINT_JSON).

(** [curl_slist_append] when the node can be allocated: the list extended
    by [h].  The NULL that libcurl returns when it cannot is not modelled. *)
Definition curl_slist_append (headers : list string) (h : string) : M (list string) :=
  emit (Curl (SlistAppend h)) ;;; ret (headers ++ [h]).

Definition curl_easy_setopt (o : CurlOption) : M unit := emit (Curl (EasySetopt o)).

Definition send (message : Msg) (url : string) (server_type : ServerType)
  (changed verbosity : Z) (x : Exchange) : M bool :=
  let verbose := flag verbosity VERBOSITY_PRINT_DETAILS in
  when verbose (emit (Fputs ("===> called send()" ++ LF)%string stderr)) ;;;
  set_data_buffer clear_data_buffer ;;;
  data_size <- set_data_buffer (encode message server_type changed verbosity) ;;
  if data_size <=? 0 then
    when verbose
      (emit (Fputs ("===> return from send() without sending because output data was not generated" ++ LF)%string stderr)) ;;;
    ret false
  else
    let data :=
      {| data := 0;
         len := to_size_t data_size;
         response_data := 0;
         response_len := to_size_t SERVER_RESPONSE_BUFFER_SIZE;
         verbose := verbose |} in
    store_response 0 x00 ;;;
    emit (Curl (EasyInit (handle x))) ;;;
    if negb (handle x) then
      emit (Fputs ("ERROR: Failed to get curl handle." ++ LF)%string stderr) ;;;
      when verbose
        (emit (Fputs ("===> return from send() without sending because failed to initialize curl" ++ LF)%string stderr)) ;;;
      ret false
    else
      when (flag verbosity VERBOSITY_PRINT_CURL) (curl_easy_setopt (CURLOPT_VERBOSE 1)) ;;;
      headers <- ret [] ;;
      headers <-
        (if ServerType_eqb server_type REST then
           headers <- curl_slist_append headers "Content-Type: application/json" ;;
           headers <- curl_slist_append headers "Accept: application/json" ;;
           headers <- curl_slist_append headers "charsets: utf-8" ;;
           headers <- curl_slist_append headers "Connection: close" ;;
           curl_easy_setopt (CURLOPT_HTTPHEADER headers) ;;;
           ret headers
         else ret headers) ;;
      headers <-
        (if ServerType_eqb server_type InfluxDB then
           headers <- curl_slist_append headers "Content-Type:" ;;
           headers <- curl_slist_append headers "Accept:" ;;
           curl_easy_setopt (CURLOPT_HTTPHEADER headers) ;;;
           ret headers
         else ret headers) ;;
      curl_easy_setopt (CURLOPT_URL url) ;;;
      (if ServerType_eqb server_type InfluxDB then
         curl_easy_setopt (CURLOPT_CUSTOMREQUEST "POST")
       else
         curl_easy_setopt (CURLOPT_CUSTOMREQUEST "PUT")) ;;;
      body <- get_data_buffer ;;
      curl_easy_setopt (CURLOPT_POSTFIELDS body) ;;;
      curl_easy_setopt CURLOPT_WRITEFUNCTION ;;;
      curl_easy_setopt CURLOPT_WRITEDATA ;;;
      r <- curl_easy_perform x data ;;
      let rc := fst r in
      let data := snd r in
      when (negb (rc =? CURLE_OK))
        (emit (Fprintf stderr ("ERROR: Sending data to %s failed: %s" ++ LF)%string
                 [AStr url; AStrerror rc]) ;;;
         emit (Fprintf log ("ERROR: Sending data to %s failed: %s" ++ LF)%string
                 [AStr url; AStrerror rc])) ;;;
      first <- load_response 0 ;;
      when (verbose && negb (Byte.eqb first x00))
        (let response_len :=
           if response_len data <=? 0 then to_size_t (response_len data - 1)
           else response_len data in
         store_response (to_size_t (SERVER_RESPONSE_BUFFER_SIZE - response_len)) x00 ;;;
         emit (FputsResponse stderr) ;;;
         emit (Fputc (ascii_of_nat 10) stderr)) ;;;
      let success := rc =? CURLE_OK in
      emit (Curl (EasyGetinfoResponseCode (response_code x))) ;;;
      let http_code := response_code x in
      success <-
        (if negb (http_code =? expected_code server_type) then
           (if http_code =? 0 then
              emit (Fprintf stderr ("ERROR: Failed to connect to server %s" ++ LF)%string
                      [AStr url])
            else
              emit (Fprintf stderr ("ERROR: Got HTTP status code %ld." ++ LF)%string
                      [AInt http_code])) ;;;
           when verbose
             (emit (FputsResponse log) ;;; emit (Fputc (ascii_of_nat 10) log)) ;;;
           emit (Fprintf log ("ERROR: Got HTTP status code %ld." ++ LF)%string
                   [AInt http_code]) ;;;
           emit (FputsResponse log) ;;;
           emit (Fputc (ascii_of_nat 10) log) ;;;
           ret false
         else
           when (rc =? CURLE_ABORTED_BY_CALLBACK)
             (emit (Fputs ("ERROR: HTTP request was aborted." ++ LF)%string stderr) ;;;
              emit (Fputs ("ERROR: HTTP request was aborted." ++ LF)%string log)) ;;;
           ret success) ;;
      emit (Curl EasyCleanup) ;;;
      when (match headers with [] => false | _ => true end) (emit (Curl SlistFreeAll)) ;;;
      when verbose (emit (Fputs ("===> return from send()" ++ LF)%string stderr)) ;;;
      ret success.

(** ** The message loop of [main] *)

(** What the receiver does during one turn of the loop: the answers of
    [isStopped] at the loop head and after the wait, the message
    [waitForMessage] delivers ([None] when it returns false), the transport
    behaviour should [send] be called, and the timer event. *)
Record Tick := {
  isStopped : bool;
  waitForMessage : option Msg;
  isStopped_after : bool;
  exchange : Exchange;
  checkAndResetTimerEvent : bool
}.

Definition sensorsData_update (dt : Data) : M Z :=
  fun w =>
    let r := update (sensorsData w) dt in
    mkRes (fst r)
      {| data_buffer := data_buffer w;
         response_buffer := response_buffer w;
         sensorsData := snd r |}
      [].

Definition message_print (m : Msg) (f : FILE) (verbosity : Z) : M bool :=
  emit (MessagePrint m f verbosity) ;;; ret (print m f verbosity).

(** The body of [if (receiver.waitForMessage(message))], after the stop
    check and the echo of the message: lines 180-201. *)
Definition dispatch_message (message : Msg) (server_url : string)
  (server_type : ServerType) (verbosity : Z) (changes_only : bool) (x : Exchange)
  : M unit :=
  if isEmpty message then
    emit (Fputs ("ERROR: Missing data." ++ LF)%string stderr)
  else if isUndecoded message then
    when (flag verbosity VERBOSITY_INFO)
      (emit (Fprintf stderr ("Could not decode the received data (error %04x)." ++ LF)%string
               [AInt (getDecodingStatus message)]))
  else
    let valid := isValid message in
    changed <- (if valid then sensorsData_update (getData message) else ret 0) ;;
    let changed :=
      if (changed =? 0) && negb changes_only
         && (valid || ServerType_eqb server_type REST)
      then full_mask else changed in
    if negb (changed =? 0) then
      emit (CallSend message server_type changed) ;;;
      sent <- send message server_url server_type changed verbosity x ;;
      when (negb sent && flag verbosity VERBOSITY_INFO)
        (emit (Fputs ("No data was sent to server." ++ LF)%string stderr))
    else
      when (flag verbosity VERBOSITY_INFO)
        (if negb valid then
           emit (Fputs ("Data is not valid and is not sent to server." ++ LF)%string stderr)
         else
           emit (Fputs ("Data is not changed and is not sent to server." ++ LF)%string stderr)).

(** One turn of [while(!receiver.isStopped())]; the result tells whether the
    loop was left through [break]. *)
Definition loop_body (t : Tick) (server_url : string) (server_type : ServerType)
  (verbosity : Z) (changes_only : bool) : M bool :=
  left <-
    (match waitForMessage t with
     | Some message =>
         if isStopped_after t then ret true
         else
           when (flag verbosity VERBOSITY_INFO)
             (message_print message stdout verbosity ;;;
              printed <- message_print message log verbosity ;;
              when printed (emit (Fflush log))) ;;;
           dispatch_message message server_url server_type verbosity changes_only
             (exchange t) ;;;
           ret false
     | None => ret false
     end) ;;
  if left then ret true
  else
    when (checkAndResetTimerEvent t) (emit PrintStatistics) ;;;
    ret false.

Fixpoint main_loop (ticks : list Tick) (server_url : string)
  (server_type : ServerType) (verbosity : Z) (changes_only : bool) : M unit :=
  match ticks with
  | [] => ret tt
  | t :: ticks' =>
      if isStopped t then ret tt
      else
        left <- loop_body t server_url server_type verbosity changes_only ;;
        if left then ret tt
        else main_loop ticks' server_url server_type verbosity changes_only
  end.

(** ** Observations on traces *)

Definition is_store (e : Effect) : option Z :=
  match e with StoreResponse i _ => Some i | _ => None end.

Definition is_send (e : Effect) : option (Msg * ServerType * Z) :=
  match e with CallSend m s c => Some (m, s, c) | _ => None end.

Definition is_curl (e : Effect) : option CurlCall :=
  match e with Curl c => Some c | _ => None end.

Definition is_setopt (e : Effect) : option CurlOption :=
  match e with Curl (EasySetopt o) => Some o | _ => None end.

Definition is_perform (e : Effect) : option Z :=
  match e with Curl (EasyPerform rc) => Some rc | _ => None end.

Definition on_log (e : Effect) : bool :=
  match e with
  | Fputs _ log | FputsResponse log | Fputc _ log | Fprintf log _ _ => true
  | _ => false
  end.

Fixpoint pick {A B} (f : A -> option B) (l : list A) : list B :=
  match l with
  | [] => []
  | a :: l' => match f a with Some b => b :: pick f l' | None => pick f l' end
  end.

(** The offsets from [response_buffer] written to, in order. *)
Definition stores (tr : list Effect) : list Z := pick is_store tr.

(** The calls of [send], with the change mask passed. *)
Definition sends (tr : list Effect) : list (Msg * ServerType * Z) := pick is_send tr.

Definition curl_calls (tr : list Effect) : list CurlCall := pick is_curl tr.

Definition setopts (tr : list Effect) : list CurlOption := pick is_setopt tr.

Definition performs (tr : list Effect) : list Z := pick is_perform tr.

(** What is written to the log file. *)
Definition log_records (tr : list Effect) : list Effect := filter on_log tr.

(** What [curl_easy_perform] returns in a call of [send]: the result of the
    transfer as the transport has it, or [CURLE_WRITE_ERROR] when the write
    function, started with the whole response buffer, does not take a chunk
    in full. *)
Definition transfer_result (x : Exchange) (w : World) : Z :=
  fst (value (curl_easy_perform x
                {| data := 0; len := 0; response_data := 0;
                   response_len := to_size_t SERVER_RESPONSE_BUFFER_SIZE;
                   verbose := false |} w)).

(** An offset lies inside the block allocated for [response_buffer]. *)
Definition in_bounds (i : Z) : Prop := 0 <= i < SERVER_RESPONSE_BUFFER_SIZE.

(** The chunks carry a server response the way libcurl passes it: each call
    hands over [size * nmemb] bytes, a positive number below the range of
    [size_t]. *)
Definition well_formed (c : Chunk) : Prop :=
  (0 < size c * nmemb c < 2 ^ SIZE_BITS) /\
  Z.of_nat (length (ptr c)) = size c * nmemb c.

Definition response (cs : list Chunk) : list byte := concat (map ptr cs).

(** The effects of the capture: stores into the response buffer and the
    progress line on [stderr]. *)
Definition capture_effect (e : Effect) : Prop :=
  match e with
  | StoreResponse _ _ => True
  | Fprintf stderr format [AInt _] => format = ("receiving %d bytes..." ++ LF)%string
  | _ => False
  end.

(** The state of a capture in progress: position and remaining capacity
    add up to the capacity of the response buffer. *)
Definition capture_state (d : PutData) : Prop :=
  0 <= response_data d /\ 0 <= response_len d /\
  response_data d + response_len d = SERVER_RESPONSE_BUFFER_SIZE.

(** The offsets [from], [from + 1], ..., [to - 1]. *)
Definition offsets (from to : Z) : list Z :=
  map (fun j => from + Z.of_nat j) (seq 0 (Z.to_nat (to - from))).

(** What a capture that started in state [d] and world [w] has done when it
    is in state [d'] and world [w'] after the effects [tr]: it stored at the
    offsets between the two positions, in order, and nowhere else. *)
Definition capture_post (d : PutData) (w : World) (d' : PutData) (w' : World)
  (tr : list Effect) : Prop :=
  capture_state d' /\
  response_data d <= response_data d' /\
  verbose d' = verbose d /\
  stores tr = offsets (response_data d) (response_data d') /\
  Forall capture_effect tr /\
  data_buffer w' = data_buffer w /\
  sensorsData w' = sensorsData w /\
  forall i, ~ (response_data d <= i < response_data d') ->
            response_buffer w' i = response_buffer w i.

End Program.

Arguments mkRes {Msg Sensors A}.
Arguments value {Msg Sensors A}.
Arguments world {Msg Sensors A}.
Arguments trace {Msg Sensors A}.

(** ** Start-up of [main]: options, validation, set-up and tear-down *)

(** [strtol] of the C library, applied with base 10. *)
Class Libc := {
  strtol : string -> Z
}.

(** The C library on strings; the strings of [argv] hold no zero
    character. *)
Definition uchar (c : ascii) : Z := Z.of_N (N_of_ascii c).

Definition tolower (c : ascii) : ascii :=
  let n := N_of_ascii c in
  if (65 <=? n)%N && (n <=? 90)%N then ascii_of_N (n + 32) else c.

Fixpoint strncmp (s1 s2 : string) (n : nat) : Z :=
  match n with
  | O => 0
  | S n' =>
      match s1, s2 with
      | EmptyString, EmptyString => 0
      | EmptyString, String c2 _ => 0 - uchar c2
      | String c1 _, EmptyString => uchar c1
      | String c1 r1, String c2 r2 =>
          if Ascii.eqb c1 c2 then strncmp r1 r2 n' else uchar c1 - uchar c2
      end
  end.

Fixpoint strcasecmp (s1 s2 : string) : Z :=
  match s1, s2 with
  | EmptyString, EmptyString => 0
  | EmptyString, String c2 _ => 0 - uchar (tolower c2)
  | String c1 _, EmptyString => uchar (tolower c1)
  | String c1 r1, String c2 r2 =>
      if Ascii.eqb (tolower c1) (tolower c2) then strcasecmp r1 r2
      else uchar (tolower c1) - uchar (tolower c2)
  end.

Fixpoint lowercase (s : string) : string :=
  match s with
  | EmptyString => EmptyString
  | String c r => String (tolower c) (lowercase r)
  end.

Fixpoint no_zero (s : string) : Prop :=
  match s with
  | EmptyString => True
  | String c r => c <> Ascii.zero /\ no_zero r
  end.

(** One return of [getopt_long]: the option character, [optarg], and
    [argv[optind]] as the [default] case prints it. *)
Record Getopt := {
  opt : ascii;
  optarg : string;
  argv_optind : string
}.

(** The locals of [main] that the options set. *)
Record Locals := {
  log_file_path : option string;
  server_url : option string;
  gpio : Z;
  server_type : ServerType;
  verbosity : Z;
  changes_only : bool
}.

Inductive Buffer := DataBuffer | ResponseBuffer.

Section Main.

Context {P : Platform} {L : Libc}.
Context {Msg Data Sensors : Type} {R : Receiver Msg Data Sensors}.

(** What [main] does outside the message loop, and the effects of the loop
    and of the diagnostics. *)
Inductive Step :=
| Eff (e : @Effect Msg)
| Fopen (path mode : string)
| Fclose (f : FILE)
| CurlGlobalInit
| CurlGlobalCleanup
| Malloc (b : Buffer) (n : Z)
| Free (b : Buffer)
| NewReceiver (gpio : Z)
| EnableReceive
| PrintStatisticsPeriodically (ms : Z)
| Exit (status : Z).

Definition DQ : string := String (ascii_of_nat 34) EmptyString.

Definition help_text : string :=
  ("(c) 2017 Alex Konshin" ++ LF ++
   "Receive data from sensors Ambient Weather F007TH then send it to remote server via REST API." ++ LF ++ LF ++
   "--gpio, -g" ++ LF ++
   "    Value is GPIO pin number (default is 27) as defined on page http://abyz.co.uk/rpi/pigpio/index.html" ++ LF ++
   "--send-to, -s" ++ LF ++
   "    Parameter value is server URL." ++ LF ++
   "--server-type, -t" ++ LF ++
   "    Parameter value is server type. Possible values are REST (default) or InfluxDB." ++ LF ++
   "--all, -A" ++ LF ++
   "    Send all data. Only changed and valid data is sent by default." ++ LF ++
   "--log-file, -l" ++ LF ++
   "    Parameter is a path to log file." ++ LF ++
   "--verbose, -v" ++ LF ++
   "    Verbose output." ++ LF ++
   "--more_verbose, -V" ++ LF ++
   "    More verbose output." ++ LF)%string.

(** [help()] prints the usage and leaves the program with status 1. *)
Definition help : list Step :=
  [Eff (Fputs help_text stderr); Eff (Fflush stderr); Fclose stderr; Exit 1].

(** The locals as [main] initialises them. *)
Definition initial_locals : Locals :=
  {| log_file_path := None; server_url := None; gpio := 27; server_type := REST;
     verbosity := 0; changes_only := true |}.

(** The [switch] on one option: the new locals, or the steps up to the exit
    through [help()]. *)
Definition option_case (o : Getopt) (l : Locals) : list Step + Locals :=
  let c := opt o in
  if Ascii.eqb c "g" then
    let long_value := strtol (optarg o) in
    if (long_value <=? 0) || (53 <? long_value) then
      inl (Eff (Fprintf stderr
                  ("ERROR: Invalid GPIO pin number " ++ DQ ++ "%s" ++ DQ ++ "." ++ LF)%string
                  [AStr (optarg o)]) :: help)
    else
      inr {| log_file_path := log_file_path l; server_url := server_url l;
             gpio := long_value; server_type := server_type l;
             verbosity := verbosity l; changes_only := changes_only l |}
  else if Ascii.eqb c "A" then
    inr {| log_file_path := log_file_path l; server_url := server_url l;
           gpio := gpio l; server_type := server_type l;
           verbosity := verbosity l; changes_only := false |}
  else if Ascii.eqb c "v" then
    inr {| log_file_path := log_file_path l; server_url := server_url l;
           gpio := gpio l; server_type := server_type l;
           verbosity := Z.lor (verbosity l) VERBOSITY_INFO;
           changes_only := changes_only l |}
  else if Ascii.eqb c "l" then
    inr {| log_file_path := Some (optarg o); server_url := server_url l;
           gpio := gpio l; server_type := server_type l;
           verbosity := verbosity l; changes_only := changes_only l |}
  else if Ascii.eqb c "s" then
    inr {| log_file_path := log_file_path l; server_url := Some (optarg o);
           gpio := gpio l; server_type := server_type l;
           verbosity := verbosity l; changes_only := changes_only l |}
  else if Ascii.eqb c "t" then
    if strcasecmp (optarg o) "REST" =? 0 then
      inr {| log_file_path := log_file_path l; server_url := server_url l;
             gpio := gpio l; server_type := REST;
             verbosity := verbosity l; changes_only := changes_only l |}
    else if strcasecmp (optarg o) "InfluxDB" =? 0 then
      inr {| log_file_path := log_file_path l; server_url := server_url l;
             gpio := gpio l; server_type := InfluxDB;
             verbosity := verbosity l; changes_only := changes_only l |}
    else
      inl (Eff (Fprintf stderr
                  ("ERROR: Unknown server type " ++ DQ ++ "%s" ++ DQ ++ "." ++ LF)%string
                  [AStr (optarg o)]) :: help)
  else if Ascii.eqb c "T" then
    inr {| log_file_path := log_file_path l; server_url := server_url l;
           gpio := gpio l; server_type := server_type l;
           verbosity := Z.lor (verbosity l) VERBOSITY_PRINT_STATISTICS;
           changes_only := changes_only l |}
  else if Ascii.eqb c "V" then
    inr {| log_file_path := log_file_path l; server_url := server_url l;
           gpio := gpio l; server_type := server_type l;
           verbosity :=
             Z.lor (verbosity l)
               (Z.lor (Z.lor (Z.lor (Z.lor VERBOSITY_INFO VERBOSITY_PRINT_JSON)
                                    VERBOSITY_PRINT_CURL)
                             VERBOSITY_PRINT_UNDECODED)
                      VERBOSITY_PRINT_DETAILS);
           changes_only := changes_only l |}
  else if Ascii.eqb c "?" then
    inl help
  else
    inl (Eff (Fprintf stderr
                ("ERROR: Unknown option " ++ DQ ++ "%s" ++ DQ ++ "." ++ LF)%string
                [AStr (argv_optind o)]) :: help).

(** The [while (1)] loop over the returns of [getopt_long], up to its -1. *)
Fixpoint parse_options (os : list Getopt) (l : Locals) : list Step + Locals :=
  match os with
  | [] => inr l
  | o :: os' =>
      match option_case o l with
      | inl steps => inl steps
      | inr l' => parse_options os' l'
      end
  end.

(** How [main] is called: [argc], what [getopt_long] returns in turn, the
    arguments left from [argv[optind]] on, and what the receiver does. *)
Record Invocation := {
  argc : Z;
  getopt_long : list Getopt;
  arguments : list string;
  ticks : list (@Tick Msg)
}.

(** Lines 48-149 of [main]: the locals with which it goes on, or the steps
    up to the exit through [help()]. *)
Definition configure (inv : Invocation) : list Step + Locals :=
  if argc inv =? 1 then inl help
  else
    match parse_options (getopt_long inv) initial_locals with
    | inl steps => inl steps
    | inr l =>
        let positional :=
          match arguments inv with
          | [] => inr l
          | [a] =>
              inr {| log_file_path := log_file_path l; server_url := Some a;
                     gpio := gpio l; server_type := server_type l;
                     verbosity := verbosity l; changes_only := changes_only l |}
          | _ :: _ :: _ => inl help
          end in
        match positional with
        | inl steps => inl steps
        | inr l =>
            match server_url l with
            | None | Some EmptyString =>
                inl (Eff (Fputs ("ERROR: Server URL must be specified (options --send-to or -s)." ++ LF)%string stderr) :: help)
            | Some url =>
                if negb (strncmp url "http://" 7 =? 0)
                   && negb (strncmp url "https://" 8 =? 0)
                then
                  inl (Eff (Fputs ("ERROR: Server URL must be HTTP or HTTPS." ++ LF)%string stderr) :: help)
                else
                  inr {| log_file_path :=
                           match log_file_path l with
                           | None | Some EmptyString => Some "f007th-send.log"
                           | Some p => Some p
                           end;
                         server_url := server_url l;
                         gpio := gpio l; server_type := server_type l;
                         verbosity := verbosity l; changes_only := changes_only l |}
            end
        end
    end.

(** The loop is left within the given turns: the receiver is stopped at a
    loop head or after a wait that returned a message. *)
Definition stops (ts : list (@Tick Msg)) : bool :=
  existsb (fun t => isStopped t
                    || match waitForMessage t with
                       | Some _ => isStopped_after t
                       | None => false
                       end) ts.

Definition unwrap (s : option string) : string :=
  match s with Some v => v | None => EmptyString end.

(** [main]: its steps in order.  The steps after the loop are those of a run
    in which the loop is left within the turns given. *)
Definition main (inv : Invocation) (w : @World Sensors) : list Step :=
  match configure inv with
  | inl steps => steps
  | inr l =>
      let r := main_loop (ticks inv) (unwrap (server_url l)) (server_type l)
                 (verbosity l) (changes_only l) w in
      [Fopen (unwrap (log_file_path l)) "w+"; CurlGlobalInit;
       Malloc DataBuffer SEND_DATA_BUFFER_SIZE;
       Malloc ResponseBuffer SERVER_RESPONSE_BUFFER_SIZE;
       NewReceiver (gpio l); EnableReceive] ++
      (if flag (verbosity l) VERBOSITY_PRINT_STATISTICS
       then [PrintStatisticsPeriodically 1000] else []) ++
      (if flag (verbosity l) VERBOSITY_INFO
       then [Eff (Fputs ("Receiving data..." ++ LF)%string stderr)] else []) ++
      map Eff (trace r) ++
      (if stops (ticks inv) then
         (if flag (verbosity l) VERBOSITY_INFO
          then [Eff (Fputs (LF ++ "Exiting..." ++ LF)%string stderr)] else []) ++
         [Free DataBuffer; Free ResponseBuffer; Fclose log; CurlGlobalCleanup; Exit 0]
       else [])
  end.

(** The status with which the program is left. *)
Fixpoint exit_status (steps : list Step) : option Z :=
  match steps with
  | [] => None
  | Exit n :: _ => Some n
  | _ :: steps' => exit_status steps'
  end.

(** A step that starts or uses the machinery of the program: the log file,
    libcurl, the buffers, the receiver, or an effect of the loop other than
    output on [stderr]. *)
Definition machinery (s : Step) : bool :=
  match s with
  | Eff (Fputs _ stderr) | Eff (Fprintf stderr _ _) | Eff (Fflush stderr) => false
  | Fclose stderr | Exit _ => false
  | _ => true
  end.

(** The steps of an exit through [help()]: at most one line on [stderr],
    then the usage. *)
Definition usage_exit (steps : list Step) : Prop :=
  steps = help \/
  exists e, steps = Eff e :: help /\
            ((exists s, e = Fputs s stderr) \/ exists f a, e = Fprintf stderr f a).

End Main.

(** ** Sample collaborators, used to evaluate the program on concrete inputs *)

(** Sample values of the macros (the headers defining them are not among the
    sources): a 32-bit [size_t], an 8 KiB response buffer, one bit per
    verbosity flag and per change flag. *)
Definition sample_platform : Platform := {|
  SIZE_BITS := 32;
  SEND_DATA_BUFFER_SIZE := 2048;
  SERVER_RESPONSE_BUFFER_SIZE := 8192;
  VERBOSITY_INFO := 2;
  VERBOSITY_PRINT_DETAILS := 4;
  VERBOSITY_PRINT_JSON := 32;
  VERBOSITY_PRINT_CURL := 64;
  VERBOSITY_PRINT_UNDECODED := 16;
  VERBOSITY_PRINT_STATISTICS := 8;
  TEMPERATURE_IS_CHANGED := 4;
  HUMIDITY_IS_CHANGED := 2;
  BATTERY_STATUS_IS_CHANGED := 1
|}.

Record SampleMessage := {
  sm_empty : bool;
  sm_undecoded : bool;
  sm_valid : bool;
  sm_status : Z;
  sm_sensor : Z;
  sm_temperature : Z;
  sm_humidity : Z;
  sm_battery : bool
}.

(** Modelled from the spec: the Change Tracker ([SensorsData::update], whose
    source is missing) returns the flags of the measured fields that differ
    from the state recorded for the same sensor identity; a sensor seen for
    the first time has every field changed. *)
Definition sample_update (s : list SampleMessage) (m : SampleMessage)
  : Z * list SampleMessage :=
  match find (fun p => sm_sensor p =? sm_sensor m) s with
  | Some p =>
      (Z.lor (Z.lor (if sm_temperature p =? sm_temperature m then 0 else 4)
                    (if sm_humidity p =? sm_humidity m then 0 else 2))
             (if Bool.eqb (sm_battery p) (sm_battery m) then 0 else 1),
       m :: s)
  | None => (7, m :: s)
  end.

(** Modelled from the spec: the Payload Encoder ([ReceivedMessage::json] and
    [ReceivedMessage::influxDB], whose sources are missing) writes a
    null-terminated document into the buffer and returns its length, or a
    value [<= 0] when there is nothing to send.  The documents here are
    one-letter stand-ins: [j] for the JSON document, and one of [t], [h],
    [b] per field selected by the change mask for the line protocol. *)
Definition sample_json (m : SampleMessage) (buffer : list byte) (capacity : Z)
  (opt pretty : bool) : Z * list byte :=
  (1, [x6a; x00]).

Definition sample_influxDB (m : SampleMessage) (buffer : list byte) (capacity : Z)
  (changed : Z) (pretty : bool) : Z * list byte :=
  let doc :=
    (if Z.testbit changed 2 then [x74] else []) ++
    (if Z.testbit changed 1 then [x68] else []) ++
    (if Z.testbit changed 0 then [x62] else []) in
  (Z.of_nat (length doc), doc ++ [x00]).

Definition sample_receiver : Receiver SampleMessage SampleMessage (list SampleMessage) := {|
  isEmpty := sm_empty;
  isUndecoded := sm_undecoded;
  isValid := sm_valid;
  getDecodingStatus := sm_status;
  getData := fun m => m;
  print := fun _ _ _ => true;
  json := sample_json;
  influxDB := sample_influxDB;
  update := sample_update
|}.

Definition sample_world : @World (list SampleMessage) :=
  {| data_buffer := repeat x00 (Z.to_nat 2048);
     response_buffer := fun _ => x00;
     sensorsData := [] |}.

(** A valid reading of sensor 1: 21.5 degrees, 40 percent, battery good. *)
Definition sample_message : SampleMessage :=
  {| sm_empty := false; sm_undecoded := false; sm_valid := true; sm_status := 0;
     sm_sensor := 1; sm_temperature := 215; sm_humidity := 40; sm_battery := true |}.

(** A server response of [n] bytes [A], passed by libcurl in one call. *)
Definition one_chunk (n : Z) : list Chunk :=
  [{| ptr := repeat x41 (Z.to_nat n); size := 1; nmemb := n |}].

(** The same sensor a little later: only the temperature differs. *)
Definition sample_warmer : SampleMessage :=
  {| sm_empty := false; sm_undecoded := false; sm_valid := true; sm_status := 0;
     sm_sensor := 1; sm_temperature := 220; sm_humidity := 40; sm_battery := true |}.

(** A reading that failed the validity check. *)
Definition sample_invalid : SampleMessage :=
  {| sm_empty := false; sm_undecoded := false; sm_valid := false; sm_status := 0;
     sm_sensor := 1; sm_temperature := 999; sm_humidity := 40; sm_battery := true |}.

(** A transmission that could not be decoded (status 0x0040). *)
Definition sample_undecoded : SampleMessage :=
  {| sm_empty := false; sm_undecoded := true; sm_valid := false; sm_status := 64;
     sm_sensor := 0; sm_temperature := 0; sm_humidity := 0; sm_battery := false |}.

Definition sample_url : string := "http://localhost:8086/write?db=sensors".

(** The server answers with the given status and a two-byte body. *)
Definition exchange_answered (code : Z) : Exchange :=
  {| handle := true; chunks := one_chunk 2; transfer_code := CURLE_OK;
     response_code := code |}.

(** The connection is refused: the transfer fails with
    [CURLE_COULDNT_CONNECT] and no response code is available. *)
Definition exchange_refused : Exchange :=
  {| handle := true; chunks := []; transfer_code := 7; response_code := 0 |}.

(** The server answers 200 with a body of exactly 8192 bytes. *)
Definition exchange_full : Exchange :=
  {| handle := true; chunks := one_chunk 8192; transfer_code := CURLE_OK;
     response_code := 200 |}.

(** A turn of the loop in which [message] arrives. *)
Definition sample_tick (message : SampleMessage) (x : Exchange) : @Tick SampleMessage :=
  {| isStopped := false; waitForMessage := Some message; isStopped_after := false;
     exchange := x; checkAndResetTimerEvent := false |}.

(** The state [send] starts a capture in. *)
Definition sample_PutData : PutData :=
  {| data := 0; len := 3; response_data := 0; response_len := 8192; verbose := false |}.

(** A stand-in for [strtol] with base 10: the value of the leading decimal
    digits. *)
Fixpoint leading_digits (s : string) (acc : Z) : Z :=
  match s with
  | EmptyString => acc
  | String c r =>
      let n := uchar c in
      if (48 <=? n) && (n <=? 57) then leading_digits r (10 * acc + (n - 48)) else acc
  end.

Definition sample_libc : Libc := {| strtol := fun s => leading_digits s 0 |}.

Definition getopt (c : ascii) (arg : string) : Getopt :=
  {| opt := c; optarg := arg; argv_optind := EmptyString |}.

(** The receiver is stopped. *)
Definition stop_tick : @Tick SampleMessage :=
  {| isStopped := true; waitForMessage := None; isStopped_after := true;
     exchange := exchange_refused; checkAndResetTimerEvent := false |}.

(** [f007th-send -g 17 -t influxdb -A -V -s http://other/ URL]: one reading
    arrives, then the receiver is stopped. *)
Definition sample_invocation : @Invocation SampleMessage :=
  {| argc := 11;
     getopt_long := [getopt "g" "17"; getopt "t" "influxdb"; getopt "A" EmptyString;
                     getopt "V" EmptyString; getopt "s" "http://other/"];
     arguments := [sample_url];
     ticks := [sample_tick sample_message (exchange_answered 204); stop_tick] |}.

(** [f007th-send -s ftp://localhost/]: not an HTTP or HTTPS URL. *)
Definition wrong_invocation : @Invocation SampleMessage :=
  {| argc := 3;
     getopt_long := [getopt "s" "ftp://localhost/"];
     arguments := [];
     ticks := [sample_tick sample_message (exchange_answered 204); stop_tick] |}.

(** The locals [main] goes on with for the sample command line. *)
Definition sample_locals : Locals :=
  {| log_file_path := Some "f007th-send.log"; server_url := Some sample_url;
     gpio := 17; server_type := InfluxDB; verbosity := 118; changes_only := false |}.

(** * Properties *)

(** Proof steps for goals about [send]: unfold its helpers, run the monad,
    split on the conditionals left in a trace. *)
Ltac send_unfold :=
  unfold send, curl_easy_perform, curl_slist_append, curl_easy_setopt; cbv zeta.

Ltac send_step :=
  cbn [bind when emit ret set_data_buffer get_data_buffer store_response
       load_response value world trace fst snd app negb andb
       data_buffer response_buffer sensorsData ServerType_eqb].

Ltac case_ifs :=
  repeat match goal with
         | |- context [if ?b then _ else _] => destruct b
         | |- context [match ?s with REST => _ | InfluxDB => _ end] => destruct s
         end.

Section Dispatcher.

Context {P : Platform}.
Context {Msg Data Sensors : Type} {R : Receiver Msg Data Sensors}.

Local Abbreviation Effect := (@Effect Msg).
Local Abbreviation World := (@World Sensors).

(** ** Traces *)

Lemma pick_app {A B} (f : A -> option B) (l1 l2 : list A) :
  pick f (l1 ++ l2) = pick f l1 ++ pick f l2.
Proof.
  induction l1 as [|a l1 IH]; simpl; [reflexivity|].
  destruct (f a); simpl; now rewrite IH.
Qed.

Lemma pick_none {A B} (f : A -> option B) (l : list A) :
  Forall (fun a => f a = None) l -> pick f l = [].
Proof.
  induction 1 as [|a l Ha _ IH]; simpl; [reflexivity|]. now rewrite Ha.
Qed.


Lemma capture_effect_not_curl (tr : list Effect) :
  Forall capture_effect tr -> Forall (fun e => is_curl e = None) tr.
Proof.
  apply Forall_impl. intros [] H; simpl in *; try reflexivity; contradiction.
Qed.

Lemma capture_effect_not_setopt (tr : list Effect) :
  Forall capture_effect tr -> Forall (fun e => is_setopt e = None) tr.
Proof.
  apply Forall_impl. intros [] H; simpl in *; try reflexivity; contradiction.
Qed.

Lemma capture_effect_not_perform (tr : list Effect) :
  Forall capture_effect tr -> Forall (fun e => is_perform e = None) tr.
Proof.
  apply Forall_impl. intros [] H; simpl in *; try reflexivity; contradiction.
Qed.


(** ** [memcpy] *)

Lemma memcpy_trace (n : nat) : forall (dst : Z) (src : list byte) (w : World),
  trace (Msg:=Msg) (memcpy dst src n w) =
  map (fun k => StoreResponse (dst + Z.of_nat k) (nth k src x00)) (seq 0 n).
Proof.
  induction n as [|n IH]; intros dst src w; [reflexivity|].
  cbn [memcpy bind trace store_response value world app].
  rewrite IH. cbn [seq map]. f_equal.
  - rewrite Z.add_0_r. now destruct src.
  - rewrite <- seq_shift, map_map. apply map_ext. intros k.
    f_equal; [lia|]. destruct src; [now destruct k|reflexivity].
Qed.

Lemma memcpy_stores (n : nat) (dst : Z) (src : list byte) (w : World) :
  stores (trace (Msg:=Msg) (memcpy dst src n w)) = map (fun k => dst + Z.of_nat k) (seq 0 n).
Proof.
  rewrite memcpy_trace. unfold stores.
  induction (seq 0 n) as [|k l IH]; simpl; [reflexivity|]. now rewrite IH.
Qed.

Lemma memcpy_world (n : nat) : forall (dst : Z) (src : list byte) (w : World),
  let w' := world (Msg:=Msg) (memcpy dst src n w) in
  data_buffer w' = data_buffer w /\
  sensorsData w' = sensorsData w /\
  forall i, response_buffer w' i =
            if (dst <=? i) && (i <? dst + Z.of_nat n)
            then nth (Z.to_nat (i - dst)) src x00
            else response_buffer w i.
Proof.
  induction n as [|n IH]; intros dst src w.
  - simpl. repeat split. intros i.
    destruct (dst <=? i) eqn:E1, (i <? dst + 0) eqn:E2; simpl; try reflexivity.
    apply Z.leb_le in E1. apply Z.ltb_lt in E2. lia.
  - cbn [memcpy bind store_response value world].
    match goal with |- context [memcpy _ _ _ ?w1] => set (w1' := w1) end.
    destruct (IH (dst + 1) (tl src) w1') as (Hd & Hs & Hm).
    cbv zeta. rewrite Hd, Hs. repeat split. intros i. rewrite Hm.
    subst w1'. cbn [response_buffer].
    destruct (dst + 1 <=? i) eqn:E1, (i <? dst + 1 + Z.of_nat n) eqn:E2,
             (dst <=? i) eqn:E3, (i <? dst + Z.of_nat (S n)) eqn:E4,
             (i =? dst) eqn:E5; cbn [andb];
      rewrite ?Z.leb_le, ?Z.leb_gt, ?Z.ltb_lt, ?Z.ltb_ge, ?Z.eqb_eq, ?Z.eqb_neq in *;
      try lia; try reflexivity.
    + replace (Z.to_nat (i - dst)) with (S (Z.to_nat (i - (dst + 1)))) by lia.
      destruct src; [now destruct (Z.to_nat _)|reflexivity].
    + subst i. rewrite Z.sub_diag. now destruct src.
Qed.

(** ** [write_callback] *)

Lemma to_size_t_small (z : Z) : 0 <= z < 2 ^ SIZE_BITS -> to_size_t z = z.
Proof. intros H. unfold to_size_t. now apply Z.mod_small. Qed.

Lemma to_size_t_range (z : Z) : 0 < 2 ^ SIZE_BITS -> 0 <= to_size_t z < 2 ^ SIZE_BITS.
Proof. intros H. unfold to_size_t. now apply Z.mod_pos_bound. Qed.

(** One call of the write function: it stores [k] bytes, the smaller of the
    chunk size and the remaining capacity, at the capture position, and moves
    position and remaining capacity by [k]. *)
Lemma write_callback_spec (p : list byte) (s n : Z) (d : PutData) (w : World) :
  0 <= response_len d < 2 ^ SIZE_BITS ->
  let k := Z.min (to_size_t (n * s)) (response_len d) in
  let r := write_callback (Msg:=Msg) p s n d w in
  0 <= k /\
  stores (trace r) = map (fun j => response_data d + Z.of_nat j) (seq 0 (Z.to_nat k)) /\
  response_len (snd (value r)) = response_len d - k /\
  response_data (snd (value r)) = response_data d + k /\
  verbose (snd (value r)) = verbose d /\
  fst (value r) = (if 0 <? k then k else s) /\
  Forall capture_effect (trace r) /\
  data_buffer (world r) = data_buffer w /\
  sensorsData (world r) = sensorsData w /\
  forall i, response_buffer (world r) i =
            if (response_data d <=? i) && (i <? response_data d + k)
            then nth (Z.to_nat (i - response_data d)) p x00
            else response_buffer w i.
Proof.
  intros Hlen k r.
  assert (Hpow : 0 < 2 ^ SIZE_BITS) by lia.
  pose proof (to_size_t_range (n * s) Hpow) as Hcs.
  assert (Hk : (if response_len d <? to_size_t (n * s)
                then response_len d else to_size_t (n * s)) = k).
  { subst k. destruct (Z.ltb_spec (response_len d) (to_size_t (n * s))); lia. }
  assert (Hk0 : 0 <= k) by (subst k; lia).
  subst r. unfold write_callback. cbv zeta. rewrite Hk.
  set (pre := when (verbose d) _).
  assert (Hpre : forall w0, world (pre w0) = w0 /\ stores (trace (pre w0)) = [] /\
                            Forall capture_effect (trace (pre w0))).
  { intros w0. subst pre. destruct (verbose d); simpl; repeat split; repeat constructor. }
  destruct (Hpre w) as (Hw & Hst & Hce).
  destruct (Z.ltb_spec 0 k) as [Hpos|Hzero].
  - cbn [bind ret value world trace fst snd response_len response_data verbose].
    rewrite Hw. unfold stores in *. rewrite !pick_app, Hst, app_nil_r. cbn [app].
    fold (stores (trace (Msg:=Msg) (memcpy (response_data d) p (Z.to_nat k) w))).
    rewrite memcpy_stores.
    destruct (memcpy_world (Z.to_nat k) (response_data d) p w) as (Hd & Hs & Hm).
    cbv zeta in Hd, Hs, Hm.
    repeat split; try assumption; try reflexivity; try lia.
    + apply to_size_t_small. lia.
    + rewrite app_nil_r. apply Forall_app. split; [assumption|].
      rewrite memcpy_trace. apply Forall_forall. intros e He.
      apply in_map_iff in He. destruct He as (j & <- & _). exact I.
    + intros i. rewrite Hm. now rewrite Z2Nat.id by lia.
  - cbn [bind ret value world trace fst snd]. rewrite Hw, app_nil_r.
    replace k with 0 in * by lia. rewrite Hst.
    repeat split; try assumption; try reflexivity; try lia.
    intros i. rewrite Z.add_0_r.
    destruct (response_data d <=? i) eqn:E1, (i <? response_data d) eqn:E2;
      cbn [andb]; try reflexivity.
    apply Z.leb_le in E1. apply Z.ltb_lt in E2. lia.
Qed.

(** ** Sequences of calls of the write function *)

Lemma offsets_shift (a b : Z) (m : nat) : forall o : nat,
  a <= b ->
  map (fun j => a + Z.of_nat j) (seq (Z.to_nat (b - a) + o) m) =
  map (fun j => b + Z.of_nat j) (seq o m).
Proof.
  induction m as [|m IH]; intros o Hab; [reflexivity|].
  cbn [seq map]. f_equal; [lia|].
  rewrite <- IH by assumption. now rewrite Nat.add_succ_r.
Qed.

Lemma offsets_app (a b c : Z) :
  a <= b -> b <= c -> offsets a b ++ offsets b c = offsets a c.
Proof.
  intros Hab Hbc. unfold offsets.
  replace (Z.to_nat (c - a)) with (Z.to_nat (b - a) + Z.to_nat (c - b))%nat by lia.
  rewrite seq_app, map_app. f_equal. rewrite Nat.add_0_l.
  rewrite <- (offsets_shift a b _ 0%nat Hab). now rewrite Nat.add_0_r.
Qed.

Lemma offsets_bounds (a b i : Z) : In i (offsets a b) -> a <= i < b.
Proof.
  unfold offsets. intros H. apply in_map_iff in H.
  destruct H as (j & <- & Hj). apply in_seq in Hj. lia.
Qed.

Lemma offsets_length (a b : Z) : a <= b -> Z.of_nat (length (offsets a b)) = b - a.
Proof. intros H. unfold offsets. rewrite length_map, length_seq. lia. Qed.

Lemma capture_post_refl (d : PutData) (w : World) :
  capture_state d -> capture_post (Msg:=Msg) d w d w [].
Proof.
  intros H. unfold capture_post, offsets. rewrite Z.sub_diag.
  repeat split; try (apply H); try reflexivity; try lia. constructor.
Qed.

(** One call of the write function advances a capture. *)
Lemma write_callback_post (p : list byte) (s n : Z) (d : PutData) (w : World) :
  SERVER_RESPONSE_BUFFER_SIZE < 2 ^ SIZE_BITS ->
  capture_state d ->
  let r := write_callback (Msg:=Msg) p s n d w in
  capture_post d w (snd (value r)) (world r) (trace r).
Proof.
  intros Hcap (Hd0 & Hl0 & Hsum) r.
  destruct (write_callback_spec p s n d w) as
    (Hk & Hst & Hlen & Hdat & Hvb & _ & Hce & Hdb & Hsd & Hmem); [lia|].
  cbv zeta in *. fold r in Hst, Hlen, Hdat, Hvb, Hce, Hdb, Hsd, Hmem.
  set (k := Z.min (to_size_t (n * s)) (response_len d)) in *.
  unfold capture_post, capture_state.
  rewrite Hlen, Hdat, Hvb, Hst, Hdb, Hsd. unfold offsets.
  replace (response_data d + k - response_data d) with k by lia.
  repeat split; try assumption; try reflexivity; try lia.
  intros i Hi. rewrite Hmem.
  destruct (response_data d <=? i) eqn:E1, (i <? response_data d + k) eqn:E2;
    cbn [andb]; try reflexivity.
  apply Z.leb_le in E1. apply Z.ltb_lt in E2. lia.
Qed.

Lemma capture_post_trans (d : PutData) (w : World) (d1 : PutData) (w1 : World)
  (tr1 : list Effect) (d2 : PutData) (w2 : World) (tr2 : list Effect) :
  capture_post d w d1 w1 tr1 -> capture_post d1 w1 d2 w2 tr2 ->
  capture_post d w d2 w2 (tr1 ++ tr2).
Proof.
  intros (_ & Hle1 & Hv1 & Hs1 & Hc1 & Hb1 & Hn1 & Hm1)
         (Hst & Hle2 & Hv2 & Hs2 & Hc2 & Hb2 & Hn2 & Hm2).
  unfold capture_post. repeat split; try (apply Hst); try lia; try congruence.
  - unfold stores in *. rewrite pick_app, Hs1, Hs2. now apply offsets_app.
  - now apply Forall_app.
  - intros i Hi. rewrite Hm2 by lia. apply Hm1. lia.
Qed.

Lemma callbacks_post (cs : list Chunk) : forall (d : PutData) (w : World),
  SERVER_RESPONSE_BUFFER_SIZE < 2 ^ SIZE_BITS ->
  capture_state d ->
  let r := callbacks (Msg:=Msg) cs d w in
  capture_post d w (value r) (world r) (trace r).
Proof.
  induction cs as [|c cs IH]; intros d w Hcap Hd.
  - now apply capture_post_refl.
  - cbn [callbacks bind value world trace].
    pose proof (write_callback_post (ptr c) (size c) (nmemb c) d w Hcap Hd) as H1.
    cbv zeta in H1. eapply capture_post_trans; [exact H1|].
    apply IH; [assumption|apply H1].
Qed.

Lemma deliver_post (cs : list Chunk) : forall (d : PutData) (w : World),
  SERVER_RESPONSE_BUFFER_SIZE < 2 ^ SIZE_BITS ->
  capture_state d ->
  let r := deliver (Msg:=Msg) cs d w in
  capture_post d w (snd (value r)) (world r) (trace r).
Proof.
  induction cs as [|c cs IH]; intros d w Hcap Hd.
  - now apply capture_post_refl.
  - cbn [deliver bind value world trace].
    pose proof (write_callback_post (ptr c) (size c) (nmemb c) d w Hcap Hd) as H1.
    cbv zeta in H1. eapply capture_post_trans; [exact H1|].
    destruct (_ =? _).
    + apply IH; [assumption|apply H1].
    + apply capture_post_refl. apply H1.
Qed.

(** ** The capture never exceeds the capacity *)

(** C3: for every sequence of chunks passed to the write function by a
    capture started as [send] starts it (position 0, remaining capacity
    [SERVER_RESPONSE_BUFFER_SIZE]), the number of bytes stored in the
    response buffer is at most the capacity and every store lies inside the
    buffer; at each chunk the number of bytes stored is the minimum of the
    chunk size and the remaining capacity, and the remaining capacity
    decreases by exactly that number. *)
Theorem capture_never_exceeds_capacity (cs : list Chunk) (d : PutData) (w : World) :
  0 <= SERVER_RESPONSE_BUFFER_SIZE < 2 ^ SIZE_BITS ->
  response_data d = 0 ->
  response_len d = to_size_t SERVER_RESPONSE_BUFFER_SIZE ->
  let r := callbacks (Msg:=Msg) cs d w in
  Z.of_nat (length (stores (trace r))) <= SERVER_RESPONSE_BUFFER_SIZE /\
  Forall in_bounds (stores (trace r)) /\
  forall cs1 c cs2, cs = cs1 ++ c :: cs2 ->
    let r1 := callbacks (Msg:=Msg) cs1 d w in
    let r2 := write_callback (Msg:=Msg) (ptr c) (size c) (nmemb c) (value r1) (world r1) in
    let copied := Z.of_nat (length (stores (trace r2))) in
    copied = Z.min (to_size_t (nmemb c * size c)) (response_len (value r1)) /\
    response_len (snd (value r2)) = response_len (value r1) - copied.
Proof.
  intros Hcap Hd Hl r.
  rewrite to_size_t_small in Hl by assumption.
  assert (Hst : capture_state d) by (unfold capture_state; lia).
  assert (Hlt : SERVER_RESPONSE_BUFFER_SIZE < 2 ^ SIZE_BITS) by lia.
  split; [|split].
  - destruct (callbacks_post cs d w Hlt Hst) as ((_ & Hl' & Hsum) & Hle & _ & Hs & _).
    fold r in Hl', Hsum, Hle, Hs. rewrite Hs, offsets_length by assumption. lia.
  - destruct (callbacks_post cs d w Hlt Hst) as ((_ & Hl' & Hsum) & Hle & _ & Hs & _).
    fold r in Hl', Hsum, Hle, Hs. rewrite Hs. apply Forall_forall. intros i Hi.
    apply offsets_bounds in Hi. unfold in_bounds. lia.
  - intros cs1 c cs2 _ r1 r2 copied.
    destruct (callbacks_post cs1 d w Hlt Hst) as ((Hd1 & Hl1 & Hsum1) & _).
    fold r1 in Hd1, Hl1, Hsum1.
    destruct (write_callback_spec (ptr c) (size c) (nmemb c) (value r1) (world r1))
      as (Hk & Hs & Hlen & _); [lia|].
    cbv zeta in Hs, Hlen. fold r2 in Hs, Hlen.
    assert (Hc : copied = Z.min (to_size_t (nmemb c * size c)) (response_len (value r1))).
    { subst copied. rewrite Hs, length_map, length_seq. lia. }
    split; [exact Hc|]. rewrite Hlen. lia.
Qed.

(** ** [send]: nothing to send *)

(** [send] run symbolically on its first path: the encoder has nothing to
    send. *)
Lemma send_payload_missing (message : Msg) (url : string) (server_type : ServerType)
  (changed verbosity : Z) (x : Exchange) (w : World) :
  fst (encode message server_type changed verbosity
         (snd (clear_data_buffer (data_buffer w)))) <= 0 ->
  let r := send message url server_type changed verbosity x w in
  value r = false /\
  response_buffer (world r) = response_buffer w /\
  trace r =
    if flag verbosity VERBOSITY_PRINT_DETAILS then
      [Fputs ("===> called send()" ++ LF)%string stderr;
       Fputs ("===> return from send() without sending because output data was not generated" ++ LF)%string stderr]
    else [].
Proof.
  intros Hsize r. subst r. unfold send. cbv zeta.
  apply Z.leb_le in Hsize.
  destruct (flag verbosity VERBOSITY_PRINT_DETAILS);
    cbn [bind when emit ret set_data_buffer value world trace fst snd app
         data_buffer response_buffer sensorsData];
    rewrite Hsize;
    cbn [bind when emit ret value world trace app response_buffer];
    repeat split; reflexivity.
Qed.

(** C4: when the encoder returns a length [<= 0], [send] returns false at
    once: libcurl is not called at all (no handle is acquired, no exchange is
    performed), nothing is stored in the response buffer, and the only
    effects are the two trace lines printed under [VERBOSITY_PRINT_DETAILS]. *)
Theorem send_without_payload (message : Msg) (url : string) (server_type : ServerType)
  (changed verbosity : Z) (x : Exchange) (w : World) :
  fst (encode message server_type changed verbosity
         (snd (clear_data_buffer (data_buffer w)))) <= 0 ->
  let r := send message url server_type changed verbosity x w in
  value r = false /\
  curl_calls (trace r) = [] /\
  stores (trace r) = [] /\
  response_buffer (world r) = response_buffer w /\
  trace r =
    if flag verbosity VERBOSITY_PRINT_DETAILS then
      [Fputs ("===> called send()" ++ LF)%string stderr;
       Fputs ("===> return from send() without sending because output data was not generated" ++ LF)%string stderr]
    else [].
Proof.
  intros Hsize r.
  destruct (send_payload_missing message url server_type changed verbosity x w Hsize)
    as (Hv & Hw & Htr).
  cbv zeta in Hv, Hw, Htr. fold r in Hv, Hw, Htr.
  split; [exact Hv|]. rewrite Htr.
  repeat split; try assumption; case_ifs; reflexivity.
Qed.

(** ** [send]: the exchange *)

Lemma write_callback_effects (p : list byte) (s n : Z) (d : PutData) (w : World) :
  Forall capture_effect (trace (Msg:=Msg) (write_callback p s n d w)).
Proof.
  unfold write_callback. cbv zeta.
  destruct (verbose d), (0 <? _);
    cbn [bind when emit ret value world trace app]; rewrite ?app_nil_r;
    repeat constructor.
  all: rewrite memcpy_trace; apply Forall_forall; intros e He;
    apply in_map_iff in He; destruct He as (j & <- & _); exact I.
Qed.

Lemma deliver_effects (cs : list Chunk) : forall (d : PutData) (w : World),
  Forall capture_effect (trace (Msg:=Msg) (deliver cs d w)).
Proof.
  induction cs as [|c cs IH]; intros d w; [constructor|].
  cbn [deliver bind value world trace]. apply Forall_app. split.
  - apply write_callback_effects.
  - destruct (_ =? _); [apply IH|constructor].
Qed.

Lemma write_callback_frame (p : list byte) (s n : Z) (d : PutData) (w : World) :
  let r := write_callback (Msg:=Msg) p s n d w in
  data_buffer (world r) = data_buffer w /\ sensorsData (world r) = sensorsData w.
Proof.
  unfold write_callback. cbv zeta.
  destruct (verbose d), (0 <? _);
    cbn [bind when emit ret value world trace]; try (split; reflexivity).
  all: match goal with
       | |- context [memcpy ?a ?b ?c ?w'] =>
           destruct (memcpy_world c a b w') as (Hd & Hs & _)
       end; cbv zeta in Hd, Hs; rewrite Hd, Hs; split; reflexivity.
Qed.

Lemma deliver_frame (cs : list Chunk) : forall (d : PutData) (w : World),
  let r := deliver (Msg:=Msg) cs d w in
  data_buffer (world r) = data_buffer w /\ sensorsData (world r) = sensorsData w.
Proof.
  induction cs as [|c cs IH]; intros d w; [split; reflexivity|].
  cbn [deliver bind value world trace].
  destruct (write_callback_frame (ptr c) (size c) (nmemb c) d w) as (Hd & Hs).
  cbv zeta in Hd, Hs.
  destruct (_ =? _).
  - destruct (IH (snd (value (write_callback (Msg:=Msg) (ptr c) (size c) (nmemb c) d w)))
                 (world (write_callback (Msg:=Msg) (ptr c) (size c) (nmemb c) d w)))
      as (Hd' & Hs').
    cbv zeta in Hd', Hs'. rewrite Hd', Hs', Hd, Hs. split; reflexivity.
  - cbn [ret world]. rewrite Hd, Hs. split; reflexivity.
Qed.

(** The state in which [send] starts the capture. *)
Lemma send_capture_state (data_size : Z) (vb : bool) :
  0 <= SERVER_RESPONSE_BUFFER_SIZE < 2 ^ SIZE_BITS ->
  capture_state
    {| data := 0; len := to_size_t data_size; response_data := 0;
       response_len := to_size_t SERVER_RESPONSE_BUFFER_SIZE; verbose := vb |}.
Proof.
  intros H. unfold capture_state. cbn [response_data response_len].
  rewrite to_size_t_small by assumption. lia.
Qed.


(** [send] run symbolically on the path that reaches the exchange: the
    encoder produced a payload and [curl_easy_init] returned a handle. *)
Lemma send_exchange (message : Msg) (url : string) (server_type : ServerType)
  (changed verbosity : Z) (x : Exchange) (w : World) :
  0 < fst (encode message server_type changed verbosity
             (snd (clear_data_buffer (data_buffer w)))) ->
  handle x = true ->
  let enc := encode message server_type changed verbosity
               (snd (clear_data_buffer (data_buffer w))) in
  let vb := flag verbosity VERBOSITY_PRINT_DETAILS in
  let d0 := {| data := 0; len := to_size_t (fst enc); response_data := 0;
               response_len := to_size_t SERVER_RESPONSE_BUFFER_SIZE;
               verbose := vb |} in
  let w0 := {| data_buffer := snd enc;
               response_buffer := fun i => if i =? 0 then x00 else response_buffer w i;
               sensorsData := sensorsData w |} in
  let dl := deliver (Msg:=Msg) (chunks x) d0 w0 in
  let rc := if fst (value dl) then transfer_code x else CURLE_WRITE_ERROR in
  let terminate := vb && negb (Byte.eqb (response_buffer (world dl) 0) x00) in
  let remaining := response_len (snd (value dl)) in
  let index :=
    to_size_t (SERVER_RESPONSE_BUFFER_SIZE -
               (if remaining <=? 0 then to_size_t (remaining - 1) else remaining)) in
  let code := response_code x in
  let r := send message url server_type changed verbosity x w in
  value r = (rc =? CURLE_OK) && (code =? expected_code server_type) /\
  data_buffer (world r) = snd enc /\
  sensorsData (world r) = sensorsData w /\
  (forall i, response_buffer (world r) i =
             if terminate && (i =? index) then x00 else response_buffer (world dl) i) /\
  trace r =
    (if vb then [Fputs ("===> called send()" ++ LF)%string stderr] else []) ++
    [StoreResponse 0 x00; Curl (EasyInit true)] ++
    (if flag verbosity VERBOSITY_PRINT_CURL
     then [Curl (EasySetopt (CURLOPT_VERBOSE 1))] else []) ++
    match server_type with
    | REST =>
        [Curl (SlistAppend "Content-Type: application/json");
         Curl (SlistAppend "Accept: application/json");
         Curl (SlistAppend "charsets: utf-8");
         Curl (SlistAppend "Connection: close");
         Curl (EasySetopt (CURLOPT_HTTPHEADER
                 ["Content-Type: application/json"; "Accept: application/json";
                  "charsets: utf-8"; "Connection: close"]%string));
         Curl (EasySetopt (CURLOPT_URL url));
         Curl (EasySetopt (CURLOPT_CUSTOMREQUEST "PUT"))]
    | InfluxDB =>
        [Curl (SlistAppend "Content-Type:");
         Curl (SlistAppend "Accept:");
         Curl (EasySetopt (CURLOPT_HTTPHEADER ["Content-Type:"; "Accept:"]%string));
         Curl (EasySetopt (CURLOPT_URL url));
         Curl (EasySetopt (CURLOPT_CUSTOMREQUEST "POST"))]
    end ++
    [Curl (EasySetopt (CURLOPT_POSTFIELDS (snd enc)));
     Curl (EasySetopt CURLOPT_WRITEFUNCTION);
     Curl (EasySetopt CURLOPT_WRITEDATA)] ++
    trace dl ++
    [Curl (EasyPerform rc)] ++
    (if rc =? CURLE_OK then []
     else [Fprintf stderr ("ERROR: Sending data to %s failed: %s" ++ LF)%string
             [AStr url; AStrerror rc];
           Fprintf log ("ERROR: Sending data to %s failed: %s" ++ LF)%string
             [AStr url; AStrerror rc]]) ++
    (if terminate
     then [StoreResponse index x00; FputsResponse stderr; Fputc (ascii_of_nat 10) stderr]
     else []) ++
    [Curl (EasyGetinfoResponseCode code)] ++
    (if code =? expected_code server_type then
       if rc =? CURLE_ABORTED_BY_CALLBACK
       then [Fputs ("ERROR: HTTP request was aborted." ++ LF)%string stderr;
             Fputs ("ERROR: HTTP request was aborted." ++ LF)%string log]
       else []
     else
       [if code =? 0
        then Fprintf stderr ("ERROR: Failed to connect to server %s" ++ LF)%string [AStr url]
        else Fprintf stderr ("ERROR: Got HTTP status code %ld." ++ LF)%string [AInt code]] ++
       (if vb then [FputsResponse log; Fputc (ascii_of_nat 10) log] else []) ++
       [Fprintf log ("ERROR: Got HTTP status code %ld." ++ LF)%string [AInt code];
        FputsResponse log; Fputc (ascii_of_nat 10) log]) ++
    [Curl EasyCleanup; Curl SlistFreeAll] ++
    (if vb then [Fputs ("===> return from send()" ++ LF)%string stderr] else []).
Proof.
  intros Hsize Hh.
  apply Z.leb_gt in Hsize.
  cbv zeta. send_unfold. rewrite Hh. unfold expected_code.
  destruct (flag verbosity VERBOSITY_PRINT_DETAILS);
    destruct (flag verbosity VERBOSITY_PRINT_CURL);
    destruct server_type.
  all: send_step; rewrite Hsize; send_step.
  all: match goal with
       | |- context [deliver ?cs ?d ?w0] =>
           destruct (deliver_frame cs d w0) as (Hdb & Hsd);
           cbv zeta in Hdb, Hsd; cbn [data_buffer sensorsData] in Hdb, Hsd
       end.
  all: set (dl := deliver _ _ _) in *.
  all: set (rc := if fst (value dl) then _ else _).
  all: destruct (rc =? CURLE_OK); send_step.
  all: try (destruct (Byte.eqb (response_buffer (world dl) 0) x00); send_step).
  all: match goal with
       | |- context [?c =? 200] => destruct (c =? 200)
       | |- context [?c =? 204] => destruct (c =? 204)
       end; send_step.
  all: try match goal with
       | |- context [?c =? 0] => destruct (c =? 0)
       end; send_step.
  all: try (destruct (rc =? CURLE_ABORTED_BY_CALLBACK); send_step).
  all: rewrite <- ?app_assoc; cbn [app].
  all: repeat split; try reflexivity; try assumption.
  all: intros i; match goal with
       | |- context [i =? ?e] => destruct (i =? e)
       end; reflexivity.
Qed.

(** ** A response that fills the buffer *)

Lemma response_cons (c : Chunk) (cs : list Chunk) :
  response (c :: cs) = ptr c ++ response cs.
Proof. reflexivity. Qed.

(** When the server response is at least as long as the remaining capacity,
    the capture leaves no capacity and the buffer holds the leading bytes of
    the response from the capture position on. *)
Lemma deliver_fills (cs : list Chunk) : forall (d : PutData) (w : World),
  SERVER_RESPONSE_BUFFER_SIZE < 2 ^ SIZE_BITS ->
  capture_state d ->
  Forall well_formed cs ->
  response_len d <= Z.of_nat (length (response cs)) ->
  let r := deliver (Msg:=Msg) cs d w in
  response_len (snd (value r)) = 0 /\
  forall i, response_data d <= i < SERVER_RESPONSE_BUFFER_SIZE ->
            response_buffer (world r) i =
            nth (Z.to_nat (i - response_data d)) (response cs) x00.
Proof.
  induction cs as [|c cs IH]; intros d w Hcap Hd Hwf Hlen.
  - cbn [response map concat length] in Hlen. destruct Hd as (Hd0 & Hl0 & Hsum).
    cbn [deliver ret value world snd]. split; [lia|]. intros i Hi. lia.
  - inversion Hwf as [|c' cs' (Hsz & Hptr) Hwf']; subst c' cs'.
    rewrite response_cons, length_app in Hlen. rewrite response_cons.
    cbn [deliver bind value world trace].
    pose proof (write_callback_post (ptr c) (size c) (nmemb c) d w Hcap Hd) as H1.
    destruct (write_callback_spec (ptr c) (size c) (nmemb c) d w) as
      (Hk & _ & Hrl & Hrd & _ & Hret & _ & _ & _ & Hmem);
      [destruct Hd as (? & ? & ?); lia|].
    cbv zeta in H1, Hrl, Hrd, Hret, Hmem.
    set (r1 := write_callback (ptr c) (size c) (nmemb c) d w) in *.
    replace (to_size_t (nmemb c * size c)) with (size c * nmemb c) in *
      by (rewrite Z.mul_comm; symmetry; apply to_size_t_small; lia).
    set (k := Z.min (size c * nmemb c) (response_len d)) in *.
    assert (Hd1 : capture_state (snd (value r1))) by apply H1.
    destruct Hd as (Hd0 & Hl0 & Hsum).
    destruct (Z.le_gt_cases (size c * nmemb c) (response_len d)) as [Hfit|Hover].
    + assert (Hkk : k = size c * nmemb c) by (subst k; lia).
      assert (Hpos : (0 <? k) = true) by (apply Z.ltb_lt; lia).
      rewrite Hpos in Hret. rewrite Hret, Hkk, Z.eqb_refl.
      destruct (IH (snd (value r1)) (world r1) Hcap Hd1 Hwf') as (Hz & Hm); [lia|].
      cbv zeta in Hz, Hm. split; [exact Hz|]. intros i Hi.
      destruct (Z.lt_ge_cases i (response_data d + k)) as [Hlo|Hhi].
      * pose proof (deliver_post cs (snd (value r1)) (world r1) Hcap Hd1) as H2.
        cbv zeta in H2. destruct H2 as (_ & _ & _ & _ & _ & _ & _ & Hfr).
        rewrite Hfr by lia. rewrite Hmem.
        replace ((response_data d <=? i) && (i <? response_data d + k)) with true
          by (symmetry; apply andb_true_intro; split;
              [apply Z.leb_le|apply Z.ltb_lt]; lia).
        rewrite app_nth1 by lia. reflexivity.
      * rewrite Hm by lia. rewrite app_nth2 by lia. f_equal. lia.
    + assert (Hkk : k = response_len d) by (subst k; lia).
      set (rest := (if fst (value r1) =? size c * nmemb c
                    then deliver cs (snd (value r1))
                    else ret (false, snd (value r1))) (world r1)).
      assert (H2 : capture_post (snd (value r1)) (world r1)
                     (snd (value rest)) (world rest) (trace rest)).
      { subst rest. destruct (_ =? _).
        - now apply deliver_post.
        - now apply capture_post_refl. }
      destruct H2 as ((Hd2 & Hl2 & Hsum2) & Hle2 & _ & _ & _ & _ & _ & Hfr).
      split; [lia|]. intros i Hi.
      rewrite Hfr by lia. rewrite Hmem.
      replace ((response_data d <=? i) && (i <? response_data d + k)) with true
        by (symmetry; apply andb_true_intro; split;
            [apply Z.leb_le|apply Z.ltb_lt]; lia).
      rewrite app_nth1 by lia. reflexivity.
Qed.

(** ** The result of the transfer *)

(** What the write function returns does not depend on the memory. *)
Lemma write_callback_value (p : list byte) (s n : Z) (d : PutData) (w : World) :
  value (write_callback (Msg:=Msg) p s n d w) =
  let curl_size := to_size_t (n * s) in
  let to_copy := if response_len d <? curl_size then response_len d else curl_size in
  if 0 <? to_copy then
    (to_copy,
     {| data := data d; len := len d;
        response_data := response_data d + to_copy;
        response_len := to_size_t (response_len d - to_copy);
        verbose := verbose d |})
  else (s, d).
Proof.
  unfold write_callback. cbv zeta.
  destruct (verbose d);
    destruct (0 <? (if response_len d <? to_size_t (n * s)
                    then response_len d else to_size_t (n * s)));
    reflexivity.
Qed.

(** Whether libcurl gets through all chunks depends on the remaining
    capacity alone. *)
Lemma deliver_accepts (cs : list Chunk) : forall (d d' : PutData) (w w' : World),
  response_len d = response_len d' ->
  fst (value (deliver (Msg:=Msg) cs d w)) = fst (value (deliver (Msg:=Msg) cs d' w')).
Proof.
  induction cs as [|c cs IH]; intros d d' w w' Hlen; [reflexivity|].
  cbn [deliver bind value world].
  rewrite !write_callback_value. cbv zeta. rewrite <- Hlen.
  destruct (0 <? (if response_len d <? to_size_t (nmemb c * size c)
                  then response_len d else to_size_t (nmemb c * size c)));
    cbn [fst snd];
    match goal with
    | |- context [if ?b then _ else _] => destruct b
    end; try reflexivity; apply IH; cbn [response_len]; congruence.
Qed.

Lemma transfer_result_deliver (x : Exchange) (d : PutData) (w w' : World) :
  response_len d = to_size_t SERVER_RESPONSE_BUFFER_SIZE ->
  (if fst (value (deliver (Msg:=Msg) (chunks x) d w))
   then transfer_code x else CURLE_WRITE_ERROR) =
  transfer_result (Msg:=Msg) x w'.
Proof.
  intros Hlen. unfold transfer_result, curl_easy_perform.
  cbn [bind value fst snd emit ret].
  erewrite (deliver_accepts (chunks x) d _ w w'); [reflexivity|exact Hlen].
Qed.

Lemma transfer_result_world (x : Exchange) (w w' : World) :
  transfer_result (Msg:=Msg) x w = transfer_result (Msg:=Msg) x w'.
Proof.
  rewrite <- (transfer_result_deliver x
                {| data := 0; len := 0; response_data := 0;
                   response_len := to_size_t SERVER_RESPONSE_BUFFER_SIZE;
                   verbose := false |} w w) by reflexivity.
  apply transfer_result_deliver. reflexivity.
Qed.

Lemma transfer_result_cases (x : Exchange) (w : World) :
  transfer_result (Msg:=Msg) x w = transfer_code x \/
  transfer_result (Msg:=Msg) x w = CURLE_WRITE_ERROR.
Proof.
  rewrite <- (transfer_result_deliver x
                {| data := 0; len := 0; response_data := 0;
                   response_len := to_size_t SERVER_RESPONSE_BUFFER_SIZE;
                   verbose := false |} w w) by reflexivity.
  destruct (fst _); auto.
Qed.

Lemma transfer_result_nil (x : Exchange) (w : World) :
  chunks x = [] -> transfer_result (Msg:=Msg) x w = transfer_code x.
Proof.
  intros Hc. unfold transfer_result, curl_easy_perform. rewrite Hc. reflexivity.
Qed.

(** The calls of libcurl made by a call of [send] that reaches the
    exchange, in order. *)
Lemma send_exchange_calls (message : Msg) (url : string) (server_type : ServerType)
  (changed verbosity : Z) (x : Exchange) (w : World) :
  0 < fst (encode message server_type changed verbosity
             (snd (clear_data_buffer (data_buffer w)))) ->
  handle x = true ->
  curl_calls (trace (send message url server_type changed verbosity x w)) =
    [EasyInit true] ++
    (if flag verbosity VERBOSITY_PRINT_CURL
     then [EasySetopt (CURLOPT_VERBOSE 1)] else []) ++
    match server_type with
    | REST =>
        [SlistAppend "Content-Type: application/json";
         SlistAppend "Accept: application/json";
         SlistAppend "charsets: utf-8";
         SlistAppend "Connection: close";
         EasySetopt (CURLOPT_HTTPHEADER
           ["Content-Type: application/json"; "Accept: application/json";
            "charsets: utf-8"; "Connection: close"]%string);
         EasySetopt (CURLOPT_URL url);
         EasySetopt (CURLOPT_CUSTOMREQUEST "PUT")]
    | InfluxDB =>
        [SlistAppend "Content-Type:";
         SlistAppend "Accept:";
         EasySetopt (CURLOPT_HTTPHEADER ["Content-Type:"; "Accept:"]%string);
         EasySetopt (CURLOPT_URL url);
         EasySetopt (CURLOPT_CUSTOMREQUEST "POST")]
    end ++
    [EasySetopt (CURLOPT_POSTFIELDS
       (snd (encode message server_type changed verbosity
               (snd (clear_data_buffer (data_buffer w))))));
     EasySetopt CURLOPT_WRITEFUNCTION;
     EasySetopt CURLOPT_WRITEDATA;
     EasyPerform (transfer_result (Msg:=Msg) x w);
     EasyGetinfoResponseCode (response_code x);
     EasyCleanup; SlistFreeAll].
Proof.
  intros Hsize Hh.
  destruct (send_exchange message url server_type changed verbosity x w Hsize Hh)
    as (_ & _ & _ & _ & Htr).
  cbv zeta in Htr.
  rewrite (transfer_result_deliver x _ _ w) in Htr by reflexivity.
  match type of Htr with context [trace ?t ++ _] => set (dl := t) in * end.
  pose proof (pick_none _ _ (capture_effect_not_curl _
                (deliver_effects (chunks x) _ _ : Forall _ (trace dl)))) as Hnone.
  rewrite Htr. unfold curl_calls. rewrite !pick_app, Hnone.
  clear. case_ifs; reflexivity.
Qed.

(** C2: a call of [send] that reaches the exchange (the encoder produced a
    payload and a handle was obtained) performs exactly one transfer, whose
    result is the one of the transport: what the transport reports for the
    exchange, or [CURLE_WRITE_ERROR] when the write function stopped the
    transfer.  [send] returns true exactly when that result is [CURLE_OK]
    and the response code is the one expected for the protocol, 200 for REST
    and 204 for InfluxDB; any other response code, 0 included, yields false
    also when the transfer returned [CURLE_OK]. *)
Theorem send_success_iff (message : Msg) (url : string) (server_type : ServerType)
  (changed verbosity : Z) (x : Exchange) (w : World) :
  0 < fst (encode message server_type changed verbosity
             (snd (clear_data_buffer (data_buffer w)))) ->
  handle x = true ->
  let r := send message url server_type changed verbosity x w in
  let rc := transfer_result (Msg:=Msg) x w in
  let expected := match server_type with REST => 200 | InfluxDB => 204 end in
  performs (trace r) = [rc] /\
  (rc = transfer_code x \/ rc = CURLE_WRITE_ERROR) /\
  (chunks x = [] -> rc = transfer_code x) /\
  (value r = true <-> rc = CURLE_OK /\ response_code x = expected) /\
  (value r = true -> transfer_code x = CURLE_OK) /\
  (response_code x <> expected -> value r = false) /\
  (response_code x = 0 -> value r = false).
Proof.
  intros Hsize Hh r rc expected.
  destruct (send_exchange message url server_type changed verbosity x w Hsize Hh)
    as (Hv & _ & _ & _ & Htr).
  cbv zeta in Hv, Htr. fold r in Hv, Htr.
  rewrite (transfer_result_deliver x _ _ w) in Hv, Htr by reflexivity.
  fold rc in Hv, Htr.
  match type of Htr with context [trace ?t ++ _] => set (dl := t) in * end.
  pose proof (pick_none _ _ (capture_effect_not_perform _
                (deliver_effects (chunks x) _ _ : Forall _ (trace dl)))) as Hnone.
  assert (Hexp : expected_code server_type = expected)
    by (unfold expected_code; destruct server_type; reflexivity).
  rewrite Hexp in Hv.
  assert (Hiff : value r = true <-> rc = CURLE_OK /\ response_code x = expected)
    by (rewrite Hv, andb_true_iff, !Z.eqb_eq; reflexivity).
  pose proof (transfer_result_cases x w) as Hcases. fold rc in Hcases.
  split; [|split; [|split; [|split; [|split; [|split]]]]].
  - rewrite Htr. unfold performs. rewrite !pick_app, Hnone.
    clearbody rc. clear. case_ifs; reflexivity.
  - exact Hcases.
  - apply transfer_result_nil.
  - exact Hiff.
  - intros Ht. apply Hiff in Ht. destruct Ht as (Hok & _).
    destruct Hcases as [H|H]; [congruence|].
    rewrite H in Hok. discriminate Hok.
  - intros Hne. rewrite Hv. apply Z.eqb_neq in Hne. rewrite Hne. apply andb_false_r.
  - intros H0. rewrite Hv, H0.
    replace (0 =? expected) with false by (subst expected; destruct server_type; reflexivity).
    apply andb_false_r.
Qed.

(** The options [send] sets on the handle before the exchange. *)
Lemma send_exchange_setopts (message : Msg) (url : string)
  (server_type : ServerType) (changed verbosity : Z) (x : Exchange) (w : World) :
  0 < fst (encode message server_type changed verbosity
             (snd (clear_data_buffer (data_buffer w)))) ->
  handle x = true ->
  let body := snd (encode message server_type changed verbosity
                     (snd (clear_data_buffer (data_buffer w)))) in
  let r := send message url server_type changed verbosity x w in
  setopts (trace r) =
    (if flag verbosity VERBOSITY_PRINT_CURL then [CURLOPT_VERBOSE 1] else []) ++
    match server_type with
    | REST =>
        [CURLOPT_HTTPHEADER
           ["Content-Type: application/json"; "Accept: application/json";
            "charsets: utf-8"; "Connection: close"]%string;
         CURLOPT_URL url;
         CURLOPT_CUSTOMREQUEST "PUT"]
    | InfluxDB =>
        [CURLOPT_HTTPHEADER ["Content-Type:"; "Accept:"]%string;
         CURLOPT_URL url;
         CURLOPT_CUSTOMREQUEST "POST"]
    end ++
    [CURLOPT_POSTFIELDS body; CURLOPT_WRITEFUNCTION; CURLOPT_WRITEDATA].
Proof.
  intros Hsize Hh body r.
  destruct (send_exchange message url server_type changed verbosity x w Hsize Hh)
    as (_ & _ & _ & _ & Htr).
  cbv zeta in Htr. fold r in Htr. fold body in Htr.
  match type of Htr with context [trace ?t ++ _] => set (dl := t) in * end.
  pose proof (pick_none _ _ (capture_effect_not_setopt _
                (deliver_effects (chunks x) _ _ : Forall _ (trace dl)))) as Hnone.
  rewrite Htr. unfold setopts. rewrite !pick_app, Hnone.
  clearbody body. clear. case_ifs; reflexivity.
Qed.

(** C7: in every call of [send] that reaches the exchange the options set on
    the handle are fixed by the protocol: for REST the header list
    [Content-Type: application/json], [Accept: application/json],
    [charsets: utf-8], [Connection: close] and the method PUT; for InfluxDB
    the header list [Content-Type:], [Accept:] (which removes both headers)
    and the method POST; in both cases the URL, the encoded [data_buffer] as
    the request body, and the write function with its data (preceded by
    [CURLOPT_VERBOSE] under [VERBOSITY_PRINT_CURL]). *)
Theorem send_request_configuration (message : Msg) (url : string)
  (server_type : ServerType) (changed verbosity : Z) (x : Exchange) (w : World) :
  0 < fst (encode message server_type changed verbosity
             (snd (clear_data_buffer (data_buffer w)))) ->
  handle x = true ->
  let body := snd (encode message server_type changed verbosity
                     (snd (clear_data_buffer (data_buffer w)))) in
  let r := send message url server_type changed verbosity x w in
  setopts (trace r) =
    (if flag verbosity VERBOSITY_PRINT_CURL then [CURLOPT_VERBOSE 1] else []) ++
    match server_type with
    | REST =>
        [CURLOPT_HTTPHEADER
           ["Content-Type: application/json"; "Accept: application/json";
            "charsets: utf-8"; "Connection: close"]%string;
         CURLOPT_URL url;
         CURLOPT_CUSTOMREQUEST "PUT"]
    | InfluxDB =>
        [CURLOPT_HTTPHEADER ["Content-Type:"; "Accept:"]%string;
         CURLOPT_URL url;
         CURLOPT_CUSTOMREQUEST "POST"]
    end ++
    [CURLOPT_POSTFIELDS body; CURLOPT_WRITEFUNCTION; CURLOPT_WRITEDATA].
Proof.
  intros Hsize Hh. now apply send_exchange_setopts.
Qed.

(** ** [send]: an unexpected response code *)


End Dispatcher.

Section ResponseBuffer.

Context {P : Platform}.
Context {Msg Data Sensors : Type} {R : Receiver Msg Data Sensors}.

(** ** [send]: a response that fills the buffer *)

(** The capture of a response at least as long as the buffer, as [send]
    starts it. *)
Lemma send_capture_full (data_size : Z) (vb : bool) (cs : list Chunk) (w : @World Sensors) :
  0 < SERVER_RESPONSE_BUFFER_SIZE < 2 ^ SIZE_BITS ->
  Forall well_formed cs ->
  SERVER_RESPONSE_BUFFER_SIZE <= Z.of_nat (length (response cs)) ->
  let d0 := {| data := 0; len := to_size_t data_size; response_data := 0;
               response_len := to_size_t SERVER_RESPONSE_BUFFER_SIZE;
               verbose := vb |} in
  let dl := deliver (Msg:=Msg) cs d0 w in
  response_len (snd (value dl)) = 0 /\
  stores (trace dl) = offsets 0 SERVER_RESPONSE_BUFFER_SIZE /\
  forall i, 0 <= i < SERVER_RESPONSE_BUFFER_SIZE ->
            response_buffer (world dl) i = nth (Z.to_nat i) (response cs) x00.
Proof.
  intros Hcap Hwf Hlen d0 dl.
  assert (Hd0 : capture_state d0) by (apply send_capture_state; lia).
  assert (Hlt : SERVER_RESPONSE_BUFFER_SIZE < 2 ^ SIZE_BITS) by lia.
  destruct (deliver_fills (Msg:=Msg) cs d0 w Hlt Hd0 Hwf) as (Hz & Hm).
  { cbn [d0 response_len]. rewrite to_size_t_small by lia. exact Hlen. }
  destruct (deliver_post (Msg:=Msg) cs d0 w Hlt Hd0) as ((_ & _ & Hsum) & _ & _ & Hs & _).
  cbv zeta in Hz, Hm, Hsum, Hs. fold dl in Hz, Hm, Hsum, Hs.
  split; [exact Hz|]. split.
  - rewrite Hs. cbn [d0 response_data]. f_equal. lia.
  - intros i Hi. rewrite Hm by (cbn [d0 response_data]; lia).
    cbn [d0 response_data]. now rewrite Z.sub_0_r.
Qed.

(** C10: when [VERBOSITY_PRINT_DETAILS] is off and the server response is at
    least as long as the response buffer, the stores [send] makes into the
    buffer are the terminator at offset 0 before the exchange followed by
    the capture, which overwrites every offset of the buffer, offset 0
    included, with the bytes of the response; after the transfer returns no
    store is made, so no terminator is written behind the captured data;
    and on a response code other than the expected one the buffer is
    nevertheless written to the log with [fputs]. *)
Theorem send_quiet_leaves_buffer_unterminated (message : Msg) (url : string)
  (server_type : ServerType) (changed verbosity : Z) (x : Exchange) (w : @World Sensors) :
  0 < fst (encode message server_type changed verbosity
             (snd (clear_data_buffer (data_buffer w)))) ->
  handle x = true ->
  flag verbosity VERBOSITY_PRINT_DETAILS = false ->
  0 < SERVER_RESPONSE_BUFFER_SIZE < 2 ^ SIZE_BITS ->
  Forall well_formed (chunks x) ->
  SERVER_RESPONSE_BUFFER_SIZE <= Z.of_nat (length (response (chunks x))) ->
  let r := send message url server_type changed verbosity x w in
  exists before after rc,
    trace r = before ++ Curl (EasyPerform rc) :: after /\
    stores before = 0 :: offsets 0 SERVER_RESPONSE_BUFFER_SIZE /\
    stores after = [] /\
    (forall i, 0 <= i < SERVER_RESPONSE_BUFFER_SIZE ->
               response_buffer (world r) i = nth (Z.to_nat i) (response (chunks x)) x00) /\
    (response_code x <> expected_code server_type -> In (FputsResponse log) after).
Proof.
  intros Hsize Hh Hvb Hcap Hwf Hlen r.
  destruct (send_exchange message url server_type changed verbosity x w Hsize Hh)
    as (_ & _ & _ & Hmem & Htr).
  cbv zeta in Hmem, Htr. fold r in Hmem, Htr. rewrite Hvb in Hmem, Htr.
  match type of Htr with context [trace ?t ++ _] => set (dl := t) in * end.
  set (rc := if fst (value dl) then transfer_code x else CURLE_WRITE_ERROR) in *.
  assert (Hfull : stores (trace dl) = offsets 0 SERVER_RESPONSE_BUFFER_SIZE /\
                  forall i, 0 <= i < SERVER_RESPONSE_BUFFER_SIZE ->
                            response_buffer (world dl) i =
                            nth (Z.to_nat i) (response (chunks x)) x00).
  { subst dl. eapply send_capture_full; eassumption. }
  destruct Hfull as (Hs & Hm).
  cbn [andb] in Hmem, Htr.
  match type of Htr with
  | _ = ?a1 ++ ?a2 ++ ?a3 ++ ?a4 ++ ?a5 ++ trace dl ++ [?p] ++ ?rest =>
      exists (a1 ++ a2 ++ a3 ++ a4 ++ a5 ++ trace dl), rest, rc
  end.
  split; [|split; [|split; [|split]]].
  - rewrite Htr, <- !app_assoc. reflexivity.
  - unfold stores in *. rewrite !pick_app, Hs.
    clear. case_ifs; reflexivity.
  - unfold stores. rewrite !pick_app. clear. case_ifs; reflexivity.
  - intros i Hi. rewrite Hmem. now apply Hm.
  - intros Hcode. apply Z.eqb_neq in Hcode. rewrite Hcode.
    rewrite !in_app_iff. cbn [In]. tauto.
Qed.

(** ** [send]: the terminator written under [VERBOSITY_PRINT_DETAILS] *)

(** With no capacity left, [data.response_len - 1] wraps around in [size_t]
    and the offset [SERVER_RESPONSE_BUFFER_SIZE - data.response_len] comes
    out as the capacity plus one. *)
Lemma terminator_index_full :
  0 < SERVER_RESPONSE_BUFFER_SIZE -> SERVER_RESPONSE_BUFFER_SIZE + 1 < 2 ^ SIZE_BITS ->
  to_size_t (SERVER_RESPONSE_BUFFER_SIZE - to_size_t (0 - 1)) =
  SERVER_RESPONSE_BUFFER_SIZE + 1.
Proof.
  intros H0 H1. unfold to_size_t.
  assert (Hm : (0 - 1) mod 2 ^ SIZE_BITS = 2 ^ SIZE_BITS - 1).
  { symmetry. apply (Z.mod_unique_pos _ _ (-1)); lia. }
  rewrite Hm. symmetry. apply (Z.mod_unique_pos _ _ (-1)); lia.
Qed.

(** C1 (what the program does): under [VERBOSITY_PRINT_DETAILS], when the
    server response is at least as long as the response buffer and does not
    start with a zero byte, the remaining capacity 0 is not clamped but
    decremented, and [send] stores the terminator at offset
    [SERVER_RESPONSE_BUFFER_SIZE + 1], outside the buffer. *)
Theorem send_terminator_past_end (message : Msg) (url : string)
  (server_type : ServerType) (changed verbosity : Z) (x : Exchange)
  (w : @World Sensors) :
  0 < fst (encode message server_type changed verbosity
             (snd (clear_data_buffer (data_buffer w)))) ->
  handle x = true ->
  flag verbosity VERBOSITY_PRINT_DETAILS = true ->
  0 < SERVER_RESPONSE_BUFFER_SIZE ->
  SERVER_RESPONSE_BUFFER_SIZE + 1 < 2 ^ SIZE_BITS ->
  Forall well_formed (chunks x) ->
  SERVER_RESPONSE_BUFFER_SIZE <= Z.of_nat (length (response (chunks x))) ->
  hd x00 (response (chunks x)) <> x00 ->
  let r := send message url server_type changed verbosity x w in
  In (StoreResponse (SERVER_RESPONSE_BUFFER_SIZE + 1) x00) (trace r) /\
  ~ in_bounds (SERVER_RESPONSE_BUFFER_SIZE + 1) /\
  ~ Forall in_bounds (stores (trace r)).
Proof.
  intros Hsize Hh Hvb Hpos Hcap Hwf Hlen Hfirst r.
  destruct (send_exchange message url server_type changed verbosity x w Hsize Hh)
    as (_ & _ & _ & _ & Htr).
  cbv zeta in Htr. fold r in Htr. rewrite Hvb in Htr.
  match type of Htr with context [trace ?t ++ _] => set (dl := t) in * end.
  assert (Hfull : response_len (snd (value dl)) = 0 /\
                  forall i, 0 <= i < SERVER_RESPONSE_BUFFER_SIZE ->
                            response_buffer (world dl) i =
                            nth (Z.to_nat i) (response (chunks x)) x00).
  { subst dl. split; eapply send_capture_full; try eassumption; lia. }
  destruct Hfull as (Hz & Hm).
  assert (Hb : Byte.eqb (response_buffer (world dl) 0) x00 = false).
  { rewrite Hm by lia. cbn [Z.to_nat].
    destruct (response (chunks x)) as [|b l]; [cbn in Hlen; lia|].
    cbn [nth hd] in *. destruct (Byte.eqb b x00) eqn:E; [|reflexivity].
    apply Byte.byte_dec_bl in E. contradiction. }
  rewrite Hb, Hz in Htr. cbn [andb negb Z.leb Z.compare] in Htr.
  rewrite terminator_index_full in Htr by assumption.
  assert (Hin : In (StoreResponse (SERVER_RESPONSE_BUFFER_SIZE + 1) x00) (trace r)).
  { rewrite Htr, !in_app_iff. do 8 right. left. left. reflexivity. }
  assert (Hout : ~ in_bounds (SERVER_RESPONSE_BUFFER_SIZE + 1))
    by (unfold in_bounds; lia).
  split; [exact Hin|]. split; [exact Hout|].
  intros Hall. apply Hout. rewrite Forall_forall in Hall. apply Hall.
  unfold stores. clear - Hin.
  induction (trace r) as [|e tr IH]; [destruct Hin|].
  destruct Hin as [->|Hin]; cbn [pick is_store]; [left; reflexivity|].
  destruct (is_store e); [right|]; now apply IH.
Qed.

(** With [VERBOSITY_PRINT_DETAILS] off every store of [send] lies inside the
    response buffer, whatever the server sends. *)
Lemma send_quiet_stores_in_bounds (message : Msg) (url : string)
  (server_type : ServerType) (changed verbosity : Z) (x : Exchange)
  (w : @World Sensors) :
  0 < fst (encode message server_type changed verbosity
             (snd (clear_data_buffer (data_buffer w)))) ->
  handle x = true ->
  flag verbosity VERBOSITY_PRINT_DETAILS = false ->
  0 < SERVER_RESPONSE_BUFFER_SIZE < 2 ^ SIZE_BITS ->
  Forall in_bounds (stores (trace (send message url server_type changed verbosity x w))).
Proof.
  intros Hsize Hh Hvb Hcap.
  destruct (send_exchange message url server_type changed verbosity x w Hsize Hh)
    as (_ & _ & _ & _ & Htr).
  cbv zeta in Htr. rewrite Hvb in Htr.
  match type of Htr with
  | context [trace (deliver ?cs ?d ?w0) ++ _] =>
      assert (Hdl : Forall in_bounds (stores (trace (Msg:=Msg) (deliver cs d w0))));
      [destruct (deliver_post (Msg:=Msg) cs d w0)
         as ((_ & Hl & Hsum) & _ & _ & Hs & _);
       [lia|apply send_capture_state; lia|]
      |set (dl := deliver cs d w0) in *]
  end.
  { cbv zeta in Hl, Hsum, Hs. rewrite Hs.
    apply Forall_forall. intros i Hi. apply offsets_bounds in Hi.
    unfold in_bounds. cbn [response_data] in Hi. lia. }
  rewrite Htr. unfold stores in *. rewrite !pick_app.
  cbn [andb]. repeat (apply Forall_app; split); try exact Hdl.
  all: clear Htr Hdl; case_ifs; cbn [pick is_store]; repeat constructor.
  all: unfold in_bounds; lia.
Qed.

(** ** A response shorter than the buffer *)

(** When the whole response fits into the remaining capacity every chunk is
    taken in full and the transfer is not aborted. *)
Lemma deliver_short (cs : list Chunk) : forall (d : PutData) (w : @World Sensors),
  SERVER_RESPONSE_BUFFER_SIZE < 2 ^ SIZE_BITS ->
  capture_state d ->
  Forall well_formed cs ->
  Z.of_nat (length (response cs)) < response_len d ->
  let r := deliver (Msg:=Msg) cs d w in
  fst (value r) = true /\
  response_len (snd (value r)) = response_len d - Z.of_nat (length (response cs)).
Proof.
  induction cs as [|c cs IH]; intros d w Hcap Hd Hwf Hlen.
  - cbn [deliver ret value fst snd response map concat length]. split; [reflexivity|lia].
  - inversion Hwf as [|c' cs' (Hsz & Hptr) Hwf']; subst c' cs'.
    rewrite response_cons, length_app in Hlen. rewrite response_cons, length_app.
    cbn [deliver bind value world trace].
    pose proof (write_callback_post (Msg:=Msg) (ptr c) (size c) (nmemb c) d w Hcap Hd) as H1.
    destruct (write_callback_spec (Msg:=Msg) (ptr c) (size c) (nmemb c) d w) as
      (Hk & _ & Hrl & _ & _ & Hret & _);
      [destruct Hd as (? & ? & ?); lia|].
    cbv zeta in H1, Hrl, Hret.
    set (r1 := write_callback (ptr c) (size c) (nmemb c) d w) in *.
    replace (to_size_t (nmemb c * size c)) with (size c * nmemb c) in *
      by (rewrite Z.mul_comm; symmetry; apply to_size_t_small; lia).
    replace (Z.min (size c * nmemb c) (response_len d)) with (size c * nmemb c) in *
      by lia.
    assert (Hpos : (0 <? size c * nmemb c) = true) by (apply Z.ltb_lt; lia).
    rewrite Hpos in Hret. rewrite Hret, Z.eqb_refl.
    destruct (IH (snd (value r1)) (world r1) Hcap) as (Hok & Hrest);
      [apply H1|exact Hwf'|lia|].
    cbv zeta in Hok, Hrest. split; [exact Hok|]. rewrite Hrest. lia.
Qed.

(** Every store of [send] lies inside the response buffer when the response
    is shorter than the buffer, also under [VERBOSITY_PRINT_DETAILS]: the
    terminator then goes right behind the captured bytes. *)
Lemma send_short_response_in_bounds (message : Msg) (url : string)
  (server_type : ServerType) (changed verbosity : Z) (x : Exchange)
  (w : @World Sensors) :
  0 < fst (encode message server_type changed verbosity
             (snd (clear_data_buffer (data_buffer w)))) ->
  handle x = true ->
  0 < SERVER_RESPONSE_BUFFER_SIZE < 2 ^ SIZE_BITS ->
  Forall well_formed (chunks x) ->
  Z.of_nat (length (response (chunks x))) < SERVER_RESPONSE_BUFFER_SIZE ->
  Forall in_bounds (stores (trace (send message url server_type changed verbosity x w))).
Proof.
  intros Hsize Hh Hcap Hwf Hlen.
  destruct (send_exchange message url server_type changed verbosity x w Hsize Hh)
    as (_ & _ & _ & _ & Htr).
  cbv zeta in Htr.
  match type of Htr with
  | context [trace (deliver ?cs ?d ?w0) ++ _] =>
      assert (Hd : capture_state d) by (apply send_capture_state; lia);
      pose proof (deliver_post (Msg:=Msg) cs d w0 (proj2 Hcap) Hd) as Hpost;
      pose proof (deliver_short cs d w0 (proj2 Hcap) Hd Hwf) as Hshort;
      set (dl := deliver cs d w0) in *
  end.
  cbv zeta in Hpost, Hshort. cbn [response_len response_data] in Hpost, Hshort.
  rewrite to_size_t_small in Hshort by lia.
  destruct (Hshort Hlen) as (_ & Hrl). clear Hshort.
  destruct Hpost as ((_ & Hl & Hsum) & _ & _ & Hs & _).
  cbn [response_len response_data] in Hl, Hsum, Hs.
  assert (Hdl : Forall in_bounds (stores (trace dl))).
  { rewrite Hs. apply Forall_forall. intros i Hi. apply offsets_bounds in Hi.
    unfold in_bounds. lia. }
  set (total := Z.of_nat (length (response (chunks x)))) in *.
  assert (Hidx : to_size_t (SERVER_RESPONSE_BUFFER_SIZE -
                   (if response_len (snd (value dl)) <=? 0
                    then to_size_t (response_len (snd (value dl)) - 1)
                    else response_len (snd (value dl)))) = total).
  { rewrite Hrl. replace (SERVER_RESPONSE_BUFFER_SIZE - total <=? 0) with false
      by (symmetry; apply Z.leb_gt; lia).
    replace (SERVER_RESPONSE_BUFFER_SIZE - (SERVER_RESPONSE_BUFFER_SIZE - total))
      with total by lia.
    apply to_size_t_small. lia. }
  rewrite Hidx in Htr. rewrite Htr. unfold stores in *. rewrite !pick_app.
  repeat (apply Forall_app; split); try exact Hdl.
  all: clear Htr Hdl Hs Hidx Hl; case_ifs; cbn [pick is_store]; repeat constructor.
  all: unfold in_bounds; lia.
Qed.

End ResponseBuffer.

Section Loop.

Context {P : Platform}.
Context {Msg Data Sensors : Type} {R : Receiver Msg Data Sensors}.

(** ** [send] on its third path: no handle *)

Lemma send_without_handle (message : Msg) (url : string) (server_type : ServerType)
  (changed verbosity : Z) (x : Exchange) (w : @World Sensors) :
  0 < fst (encode message server_type changed verbosity
             (snd (clear_data_buffer (data_buffer w)))) ->
  handle x = false ->
  let r := send message url server_type changed verbosity x w in
  value r = false /\
  trace r =
    (if flag verbosity VERBOSITY_PRINT_DETAILS
     then [Fputs ("===> called send()" ++ LF)%string stderr] else []) ++
    [StoreResponse 0 x00; Curl (EasyInit false);
     Fputs ("ERROR: Failed to get curl handle." ++ LF)%string stderr] ++
    (if flag verbosity VERBOSITY_PRINT_DETAILS
     then [Fputs ("===> return from send() without sending because failed to initialize curl" ++ LF)%string stderr]
     else []).
Proof.
  intros Hsize Hh r. subst r. apply Z.leb_gt in Hsize.
  send_unfold. rewrite Hh.
  destruct (flag verbosity VERBOSITY_PRINT_DETAILS);
    send_step; rewrite Hsize; send_step; split; reflexivity.
Qed.

(** [send] does not call itself: a trace of [send] holds no [CallSend]. *)
Lemma send_sends (message : Msg) (url : string) (server_type : ServerType)
  (changed verbosity : Z) (x : Exchange) (w : @World Sensors) :
  sends (trace (send message url server_type changed verbosity x w)) = [].
Proof.
  destruct (Z.le_gt_cases
              (fst (encode message server_type changed verbosity
                      (snd (clear_data_buffer (data_buffer w))))) 0) as [Hle|Hgt].
  - destruct (send_payload_missing message url server_type changed verbosity x w Hle)
      as (_ & _ & Htr).
    cbv zeta in Htr. rewrite Htr. case_ifs; reflexivity.
  - destruct (handle x) eqn:Hh.
    + destruct (send_exchange message url server_type changed verbosity x w Hgt Hh)
        as (_ & _ & _ & _ & Htr).
      cbv zeta in Htr. rewrite Htr. clear Htr.
      unfold sends. rewrite !pick_app.
      match goal with
      | |- context [trace (deliver ?cs ?d ?w0)] =>
          pose proof (deliver_effects (Msg:=Msg) cs d w0) as Hdl;
          set (dl := deliver cs d w0) in *
      end.
      assert (Hn : pick is_send (trace dl) = []).
      { apply pick_none. revert Hdl. apply Forall_impl.
        intros [] H; simpl in *; try reflexivity; contradiction. }
      rewrite Hn. clear. case_ifs; reflexivity.
    + destruct (send_without_handle message url server_type changed verbosity x w Hgt Hh)
        as (_ & Htr).
      cbv zeta in Htr. rewrite Htr. case_ifs; reflexivity.
Qed.

(** ** One turn of the loop *)

Ltac loop_step :=
  cbn [bind when emit ret message_print sensorsData_update value world trace
       fst snd app negb andb orb data_buffer response_buffer sensorsData].

(** The loop body around the dispatch of a message: the echo of the message
    under [VERBOSITY_INFO] before it, the statistics on a timer event after
    it. *)
Lemma loop_body_trace (t : Tick) (url : string) (server_type : ServerType)
  (verbosity : Z) (changes_only : bool) (w : @World Sensors) (m : Msg) :
  waitForMessage t = Some m ->
  isStopped_after t = false ->
  let r := loop_body t url server_type verbosity changes_only w in
  let dm := dispatch_message m url server_type verbosity changes_only (exchange t) w in
  value r = false /\
  world r = world dm /\
  trace r =
    (if flag verbosity VERBOSITY_INFO
     then [MessagePrint m stdout verbosity; MessagePrint m log verbosity] ++
          (if print m log verbosity then [Fflush log] else [])
     else []) ++
    trace dm ++
    (if checkAndResetTimerEvent t then [PrintStatistics] else []).
Proof.
  intros Hm Hs. unfold loop_body. rewrite Hm, Hs. cbv zeta.
  destruct (flag verbosity VERBOSITY_INFO); loop_step;
    try (destruct (print m log verbosity); loop_step);
    destruct (checkAndResetTimerEvent t); loop_step;
    rewrite ?app_nil_r; repeat split; reflexivity.
Qed.

(** A turn that does not get to a message sends nothing. *)
Lemma loop_body_idle (t : Tick) (url : string) (server_type : ServerType)
  (verbosity : Z) (changes_only : bool) (w : @World Sensors) :
  waitForMessage t = None \/ isStopped_after t = true ->
  let r := loop_body t url server_type verbosity changes_only w in
  sends (trace r) = [] /\ curl_calls (trace r) = [] /\ world r = w.
Proof.
  intros H. unfold loop_body.
  destruct (waitForMessage t) as [m|]; [destruct H as [H|H]; [discriminate|rewrite H]|];
    destruct (checkAndResetTimerEvent t); loop_step; repeat split; reflexivity.
Qed.

(** The dispatch of a decoded message run symbolically: [tracked] is the
    mask of the change tracker (0 for an invalid message, for which the
    tracker is not consulted), [changed] the mask after the send-all
    override. *)
Lemma dispatch_message_decoded (m : Msg) (url : string) (server_type : ServerType)
  (verbosity : Z) (changes_only : bool) (x : Exchange) (w : @World Sensors) :
  isEmpty m = false ->
  isUndecoded m = false ->
  let tracked := if isValid m then fst (update (sensorsData w) (getData m)) else 0 in
  let w1 := if isValid m
            then {| data_buffer := data_buffer w;
                    response_buffer := response_buffer w;
                    sensorsData := snd (update (sensorsData w) (getData m)) |}
            else w in
  let changed :=
    if (tracked =? 0) && negb changes_only
       && (isValid m || ServerType_eqb server_type REST)
    then full_mask else tracked in
  let sent := send m url server_type changed verbosity x w1 in
  let r := dispatch_message m url server_type verbosity changes_only x w in
  trace r =
    if changed =? 0 then
      if flag verbosity VERBOSITY_INFO then
        [Fputs (if isValid m
                then "Data is not changed and is not sent to server." ++ LF
                else "Data is not valid and is not sent to server." ++ LF)%string
           stderr]
      else []
    else
      CallSend m server_type changed :: trace sent ++
      (if negb (value sent) && flag verbosity VERBOSITY_INFO
       then [Fputs ("No data was sent to server." ++ LF)%string stderr] else []).
Proof.
  intros He Hu. unfold dispatch_message. rewrite He, Hu. cbv zeta.
  destruct (isValid m); loop_step.
  all: match goal with
       | |- context [negb (?c =? 0)] => destruct (c =? 0)
       end; loop_step.
  all: try (destruct (flag verbosity VERBOSITY_INFO); reflexivity).
  all: match goal with
       | |- context [negb (value ?s)] => destruct (value s)
       end; loop_step; try (rewrite app_nil_r; reflexivity).
  all: destruct (flag verbosity VERBOSITY_INFO); loop_step;
         rewrite ?app_nil_r; reflexivity.
Qed.

(** The calls of [send] made by the dispatch of a message. *)
Lemma dispatch_message_sends (m : Msg) (url : string) (server_type : ServerType)
  (verbosity : Z) (changes_only : bool) (x : Exchange) (w : @World Sensors) :
  let tracked := if isValid m then fst (update (sensorsData w) (getData m)) else 0 in
  let changed :=
    if (tracked =? 0) && negb changes_only
       && (isValid m || ServerType_eqb server_type REST)
    then full_mask else tracked in
  sends (trace (dispatch_message m url server_type verbosity changes_only x w)) =
    if isEmpty m || isUndecoded m || (changed =? 0) then []
    else [(m, server_type, changed)].
Proof.
  intros tracked changed.
  destruct (isEmpty m) eqn:He; [unfold dispatch_message; rewrite He; reflexivity|].
  destruct (isUndecoded m) eqn:Hu.
  { unfold dispatch_message. rewrite He, Hu.
    destruct (flag verbosity VERBOSITY_INFO); reflexivity. }
  rewrite (dispatch_message_decoded m url server_type verbosity changes_only x w He Hu).
  cbv zeta. fold tracked. fold changed. cbn [orb].
  destruct (changed =? 0); [case_ifs; reflexivity|].
  unfold sends. cbn [pick is_send]. rewrite pick_app.
  fold (sends (trace (send m url server_type changed verbosity x
                        (if isValid m
                         then {| data_buffer := data_buffer w;
                                 response_buffer := response_buffer w;
                                 sensorsData := snd (update (sensorsData w) (getData m)) |}
                         else w)))).
  rewrite send_sends. case_ifs; reflexivity.
Qed.

(** The calls of [send] made in one turn of the loop. *)
Lemma loop_body_sends (t : Tick) (url : string) (server_type : ServerType)
  (verbosity : Z) (changes_only : bool) (w : @World Sensors) :
  sends (trace (loop_body t url server_type verbosity changes_only w)) =
    match waitForMessage t with
    | Some m =>
        if isStopped_after t then []
        else sends (trace (dispatch_message m url server_type verbosity changes_only
                             (exchange t) w))
    | None => []
    end.
Proof.
  destruct (waitForMessage t) as [m|] eqn:Hm.
  - destruct (isStopped_after t) eqn:Hs.
    + apply loop_body_idle. now right.
    + destruct (loop_body_trace t url server_type verbosity changes_only w m Hm Hs)
        as (_ & _ & Htr).
      cbv zeta in Htr. rewrite Htr. unfold sends. rewrite !pick_app.
      replace (pick is_send (if flag verbosity VERBOSITY_INFO then _ else _))
        with (@nil (Msg * ServerType * Z)) by (case_ifs; reflexivity).
      replace (pick is_send (if checkAndResetTimerEvent t then _ else _))
        with (@nil (Msg * ServerType * Z)) by (case_ifs; reflexivity).
      now rewrite app_nil_r.
  - apply loop_body_idle. left. exact Hm.
Qed.

(** ** The default policy: only changed and valid data is sent *)

(** C5: with [changes_only] set, a turn of the loop does not call [send] for
    a message that is not valid (the change tracker is then not consulted,
    whatever mask it would return) nor for a message for which the change
    tracker returns the mask 0. *)
Theorem loop_changes_only_skips (t : Tick) (url : string) (server_type : ServerType)
  (verbosity : Z) (changes_only : bool) (w : @World Sensors) (m : Msg) :
  changes_only = true ->
  waitForMessage t = Some m ->
  isValid m = false \/ fst (update (sensorsData w) (getData m)) = 0 ->
  sends (trace (loop_body t url server_type verbosity changes_only w)) = [].
Proof.
  intros Hco Hm Hskip. rewrite loop_body_sends, Hm.
  destruct (isStopped_after t); [reflexivity|].
  rewrite dispatch_message_sends. subst changes_only. cbn [negb andb].
  rewrite andb_false_r. cbn [andb].
  assert (Hz : (if isValid m then fst (update (sensorsData w) (getData m)) else 0) = 0).
  { destruct Hskip as [Hv|Hu]; [now rewrite Hv|]. rewrite Hu. now destruct (isValid m). }
  rewrite Hz. cbn [Z.eqb]. now rewrite !orb_true_r.
Qed.

(** Over a whole run of the loop with [changes_only] set, every call of
    [send] is for a decoded, valid message and passes a mask other than 0. *)
Lemma main_loop_changes_only_sends (ticks : list (@Tick Msg)) :
  forall (url : string) (server_type : ServerType) (verbosity : Z) (w : @World Sensors),
  Forall (fun c => isEmpty (fst (fst c)) = false /\
                   isUndecoded (fst (fst c)) = false /\
                   isValid (fst (fst c)) = true /\ snd c <> 0)
    (sends (trace (main_loop ticks url server_type verbosity true w))).
Proof.
  induction ticks as [|t ticks IH]; intros url server_type verbosity w;
    [constructor|].
  cbn [main_loop]. destruct (isStopped t); [constructor|].
  cbn [bind value world trace]. unfold sends. rewrite pick_app.
  apply Forall_app. split.
  - fold (sends (trace (loop_body t url server_type verbosity true w))).
    rewrite loop_body_sends.
    destruct (waitForMessage t) as [m|]; [|constructor].
    destruct (isStopped_after t); [constructor|].
    rewrite dispatch_message_sends. cbn [negb]. rewrite andb_false_r. cbn [andb].
    destruct (isEmpty m) eqn:He; [constructor|].
    destruct (isUndecoded m) eqn:Hu; [constructor|]. cbn [orb].
    destruct (isValid m) eqn:Hv; [|constructor].
    destruct (_ =? 0) eqn:Hc; constructor; [|constructor].
    cbn [fst snd]. apply Z.eqb_neq in Hc. auto.
  - destruct (value _); [constructor|apply IH].
Qed.

(** ** Messages without data *)

(** C8 (as the program has it): for a message that is empty, or not empty
    but undecoded, a turn of the loop calls neither [send] nor libcurl and
    leaves buffers and change tracker as they are.  Besides the echo of the
    message under [VERBOSITY_INFO] and the statistics on a timer event, its
    only effect is the report on [stderr]: [ERROR: Missing data.] for an
    empty message, whatever the verbosity, and for an undecoded one the line
    with the decoding status under [VERBOSITY_INFO] only; without that flag
    an undecoded message is not reported at all. *)
Theorem loop_reports_without_sending (t : Tick) (url : string)
  (server_type : ServerType) (verbosity : Z) (changes_only : bool)
  (w : @World Sensors) (m : Msg) :
  waitForMessage t = Some m ->
  isStopped_after t = false ->
  isEmpty m = true \/ isUndecoded m = true ->
  let r := loop_body t url server_type verbosity changes_only w in
  sends (trace r) = [] /\
  curl_calls (trace r) = [] /\
  world r = w /\
  trace r =
    (if flag verbosity VERBOSITY_INFO
     then [MessagePrint m stdout verbosity; MessagePrint m log verbosity] ++
          (if print m log verbosity then [Fflush log] else [])
     else []) ++
    (if isEmpty m then [Fputs ("ERROR: Missing data." ++ LF)%string stderr]
     else if flag verbosity VERBOSITY_INFO
          then [Fprintf stderr
                  ("Could not decode the received data (error %04x)." ++ LF)%string
                  [AInt (getDecodingStatus m)]]
          else []) ++
    (if checkAndResetTimerEvent t then [PrintStatistics] else []).
Proof.
  intros Hm Hs Hkind r.
  destruct (loop_body_trace t url server_type verbosity changes_only w m Hm Hs)
    as (_ & Hw & Htr).
  cbv zeta in Hw, Htr. fold r in Hw, Htr.
  assert (Hdm : world (dispatch_message m url server_type verbosity changes_only
                         (exchange t) w) = w /\
                trace (dispatch_message m url server_type verbosity changes_only
                         (exchange t) w) =
                if isEmpty m then [Fputs ("ERROR: Missing data." ++ LF)%string stderr]
                else if flag verbosity VERBOSITY_INFO
                     then [Fprintf stderr
                             ("Could not decode the received data (error %04x)." ++ LF)%string
                             [AInt (getDecodingStatus m)]]
                     else []).
  { unfold dispatch_message. destruct (isEmpty m); [split; reflexivity|].
    destruct Hkind as [Hk|Hk]; [discriminate|]. rewrite Hk.
    destruct (flag verbosity VERBOSITY_INFO); split; reflexivity. }
  destruct Hdm as (Hw' & Htr'). rewrite Htr' in Htr. rewrite Hw' in Hw.
  repeat split; try assumption.
  - rewrite Htr. clear. case_ifs; reflexivity.
  - rewrite Htr. clear. case_ifs; reflexivity.
Qed.

(** ** The send-all override *)

(** C6 (as the program has it): with the send-all override ([changes_only]
    off) a turn of the loop calls [send] exactly once for every decoded
    message that is valid, and for every decoded message at all when the
    target is REST.  The mask passed is the one of the change tracker when
    that is not 0, and the full mask when the tracker reported no change or
    was not consulted, the message being invalid.  In particular, for an
    InfluxDB target, a valid message and the tracker mask 0, [send] is called
    with the full mask, and when the encoder yields a payload and a handle is
    obtained the document encoded for the full mask is sent: the calls of
    libcurl are, in order, those that set up a POST of that document to the
    server URL, the one transfer, the query of the response code and the
    release of handle and header list. *)
Theorem loop_send_all (t : Tick) (url : string) (server_type : ServerType)
  (verbosity : Z) (changes_only : bool) (w : @World Sensors) (m : Msg) :
  changes_only = false ->
  waitForMessage t = Some m ->
  isStopped_after t = false ->
  isEmpty m = false ->
  isUndecoded m = false ->
  isValid m = true \/ server_type = REST ->
  full_mask <> 0 ->
  let tracked := if isValid m then fst (update (sensorsData w) (getData m)) else 0 in
  let r := loop_body t url server_type verbosity changes_only w in
  sends (trace r) = [(m, server_type, if tracked =? 0 then full_mask else tracked)] /\
  (server_type = InfluxDB -> tracked = 0 ->
   let enc := influxDB m (snd (clear_data_buffer (data_buffer w)))
                SEND_DATA_BUFFER_SIZE full_mask (flag verbosity VERBOSITY_PRINT_JSON) in
   0 < fst enc -> handle (exchange t) = true ->
   curl_calls (trace r) =
     [EasyInit true] ++
     (if flag verbosity VERBOSITY_PRINT_CURL
      then [EasySetopt (CURLOPT_VERBOSE 1)] else []) ++
     [SlistAppend "Content-Type:";
      SlistAppend "Accept:";
      EasySetopt (CURLOPT_HTTPHEADER ["Content-Type:"; "Accept:"]%string);
      EasySetopt (CURLOPT_URL url);
      EasySetopt (CURLOPT_CUSTOMREQUEST "POST");
      EasySetopt (CURLOPT_POSTFIELDS (snd enc));
      EasySetopt CURLOPT_WRITEFUNCTION;
      EasySetopt CURLOPT_WRITEDATA;
      EasyPerform (transfer_result (Msg:=Msg) (exchange t) w);
      EasyGetinfoResponseCode (response_code (exchange t));
      EasyCleanup; SlistFreeAll]).
Proof.
  intros Hco Hm Hs He Hu Hpol Hfull tracked r. subst changes_only.
  assert (Hgate : (isValid m || ServerType_eqb server_type REST) = true).
  { destruct Hpol as [Hv| ->]; [now rewrite Hv|apply orb_true_r]. }
  split.
  - subst r. rewrite loop_body_sends, Hm, Hs, dispatch_message_sends.
    fold tracked. rewrite He, Hu, Hgate.
    destruct (tracked =? 0) eqn:Ht; cbn [negb andb orb].
    + apply Z.eqb_neq in Hfull. now rewrite Hfull.
    + now rewrite Ht.
  - intros Hst Ht enc Hsize Hh. subst server_type.
    assert (Hv : isValid m = true) by (destruct Hpol as [Hv|Hv]; [exact Hv|discriminate]).
    destruct (loop_body_trace t url InfluxDB verbosity false w m Hm Hs) as (_ & _ & Htr).
    cbv zeta in Htr. fold r in Htr.
    rewrite (dispatch_message_decoded m url InfluxDB verbosity false (exchange t) w He Hu)
      in Htr.
    cbv zeta in Htr. fold tracked in Htr. rewrite Ht, Hv in Htr.
    cbn [Z.eqb negb andb orb] in Htr.
    apply Z.eqb_neq in Hfull. rewrite Hfull in Htr.
    rewrite Htr. unfold curl_calls. rewrite !pick_app.
    replace (pick is_curl (if flag verbosity VERBOSITY_INFO then _ else _))
      with (@nil CurlCall) by (case_ifs; reflexivity).
    replace (pick is_curl (if checkAndResetTimerEvent t then _ else _))
      with (@nil CurlCall) by (case_ifs; reflexivity).
    change (pick is_curl (CallSend m InfluxDB full_mask :: ?l)) with (pick is_curl l).
    rewrite pick_app.
    replace (pick is_curl (if negb _ && flag verbosity VERBOSITY_INFO then _ else _))
      with (@nil CurlCall) by (case_ifs; reflexivity).
    rewrite !app_nil_r. cbn [app].
    match goal with
    | |- pick is_curl (trace (send ?a ?b ?c ?d ?e ?f ?w')) = _ =>
        change (pick is_curl (trace (send a b c d e f w')))
          with (curl_calls (trace (send a b c d e f w')));
        rewrite (send_exchange_calls a b c d e f w');
        [rewrite (transfer_result_world f w' w); reflexivity| |exact Hh]
    end.
    unfold encode; cbn [ServerType_eqb data_buffer]; exact Hsize.
Qed.

End Loop.

(** * The program on concrete inputs *)

Ltac evaluate :=
  vm_compute; repeat split; try reflexivity; try discriminate; try lia.

(** C1 on a response of exactly 8192 bytes against the 8192-byte buffer,
    with [-V]: the terminator goes to offset 8193. *)
Lemma send_terminator_past_end_witness :
  let r := send (P:=sample_platform) (R:=sample_receiver)
             sample_message sample_url REST 7 4 exchange_full sample_world in
  In (StoreResponse 8193 x00) (trace r) /\
  ~ in_bounds (P:=sample_platform) 8193 /\
  ~ Forall (in_bounds (P:=sample_platform)) (stores (trace r)).
Proof.
  apply (send_terminator_past_end (P:=sample_platform) (R:=sample_receiver)
           sample_message sample_url REST 7 4 exchange_full sample_world).
  - evaluate.
  - evaluate.
  - evaluate.
  - evaluate.
  - evaluate.
  - repeat constructor; evaluate.
  - evaluate.
  - evaluate.
Defined.

(** C2 on a REST target answering 200: the transfer succeeds and [send]
    returns true. *)
Lemma send_success_iff_witness :
  let r := send (P:=sample_platform) (R:=sample_receiver)
             sample_message sample_url REST 7 0 (exchange_answered 200) sample_world in
  performs (trace r) = [CURLE_OK] /\ value r = true.
Proof.
  intros r.
  destruct (send_success_iff (P:=sample_platform) (R:=sample_receiver)
              sample_message sample_url REST 7 0 (exchange_answered 200) sample_world)
    as (Hp & _ & _ & Hiff & _); [evaluate|evaluate|].
  split; [exact Hp|]. apply Hiff. evaluate.
Defined.

(** C3 on a response of 10000 bytes against the 8192-byte buffer. *)
Lemma capture_never_exceeds_capacity_witness :
  let r := callbacks (P:=sample_platform) (Msg:=SampleMessage)
             (one_chunk 10000) sample_PutData sample_world in
  Z.of_nat (length (stores (trace r))) <= 8192 /\
  Forall (in_bounds (P:=sample_platform)) (stores (trace r)).
Proof.
  destruct (capture_never_exceeds_capacity (P:=sample_platform) (Msg:=SampleMessage)
              (one_chunk 10000) sample_PutData sample_world) as (H1 & H2 & _);
    [evaluate|evaluate|evaluate|].
  split; [exact H1|exact H2].
Defined.

(** C4 on an InfluxDB target and the change mask 0, for which the encoder
    has nothing to write. *)
Lemma send_without_payload_witness :
  let r := send (P:=sample_platform) (R:=sample_receiver)
             sample_message sample_url InfluxDB 0 0 (exchange_answered 204) sample_world in
  value r = false /\ curl_calls (trace r) = [] /\ stores (trace r) = [].
Proof.
  destruct (send_without_payload (P:=sample_platform) (R:=sample_receiver)
              sample_message sample_url InfluxDB 0 0 (exchange_answered 204) sample_world)
    as (H1 & H2 & H3 & _); [evaluate|].
  repeat split; assumption.
Defined.

(** C5 on an invalid reading. *)
Lemma loop_changes_only_skips_witness :
  sends (trace (loop_body (P:=sample_platform) (R:=sample_receiver)
                  (sample_tick sample_invalid (exchange_answered 204))
                  sample_url InfluxDB 2 true sample_world)) = [].
Proof.
  apply (loop_changes_only_skips (P:=sample_platform) (R:=sample_receiver)
           (sample_tick sample_invalid (exchange_answered 204))
           sample_url InfluxDB 2 true sample_world sample_invalid).
  - evaluate.
  - evaluate.
  - left. evaluate.
Defined.

(** C6 on an InfluxDB target and a reading equal to the recorded one: the
    tracker reports no change, [send] gets the full mask and the document is
    sent. *)
Lemma loop_send_all_witness :
  let w := {| data_buffer := data_buffer sample_world;
              response_buffer := response_buffer sample_world;
              sensorsData := [sample_message] |} in
  let r := loop_body (P:=sample_platform) (R:=sample_receiver)
             (sample_tick sample_message (exchange_answered 204))
             sample_url InfluxDB 0 false w in
  sends (trace r) = [(sample_message, InfluxDB, 7)] /\
  curl_calls (trace r) =
    [EasyInit true;
     SlistAppend "Content-Type:"; SlistAppend "Accept:";
     EasySetopt (CURLOPT_HTTPHEADER ["Content-Type:"; "Accept:"]%string);
     EasySetopt (CURLOPT_URL sample_url);
     EasySetopt (CURLOPT_CUSTOMREQUEST "POST");
     EasySetopt (CURLOPT_POSTFIELDS
                   (snd (influxDB (Receiver:=sample_receiver) sample_message
                           (snd (clear_data_buffer (data_buffer w)))
                           (SEND_DATA_BUFFER_SIZE (Platform:=sample_platform)) 7 false)));
     EasySetopt CURLOPT_WRITEFUNCTION; EasySetopt CURLOPT_WRITEDATA;
     EasyPerform CURLE_OK; EasyGetinfoResponseCode 204;
     EasyCleanup; SlistFreeAll].
Proof.
  intros w r.
  destruct (loop_send_all (P:=sample_platform) (R:=sample_receiver)
              (sample_tick sample_message (exchange_answered 204))
              sample_url InfluxDB 0 false w sample_message)
    as (H1 & H2).
  - evaluate.
  - evaluate.
  - evaluate.
  - evaluate.
  - evaluate.
  - left. evaluate.
  - evaluate.
  - split; [exact H1|].
    apply (H2 eq_refl); evaluate.
Defined.

(** C7 on a REST target. *)
Lemma send_request_configuration_witness :
  setopts (trace (send (P:=sample_platform) (R:=sample_receiver)
                    sample_message sample_url REST 7 0 (exchange_answered 200)
                    sample_world)) =
  [CURLOPT_HTTPHEADER
     ["Content-Type: application/json"; "Accept: application/json";
      "charsets: utf-8"; "Connection: close"]%string;
   CURLOPT_URL sample_url;
   CURLOPT_CUSTOMREQUEST "PUT";
   CURLOPT_POSTFIELDS [x6a; x00];
   CURLOPT_WRITEFUNCTION; CURLOPT_WRITEDATA].
Proof.
  apply (send_request_configuration (P:=sample_platform) (R:=sample_receiver)
           sample_message sample_url REST 7 0 (exchange_answered 200) sample_world).
  - evaluate.
  - evaluate.
Defined.

(** C8 on an undecoded transmission, with [-v]. *)
Lemma loop_reports_without_sending_witness :
  let r := loop_body (P:=sample_platform) (R:=sample_receiver)
             (sample_tick sample_undecoded (exchange_answered 204))
             sample_url InfluxDB 2 true sample_world in
  sends (trace r) = [] /\ curl_calls (trace r) = [] /\
  In (Fprintf stderr ("Could not decode the received data (error %04x)." ++ LF)%string
        [AInt 64]) (trace r).
Proof.
  destruct (loop_reports_without_sending (P:=sample_platform) (R:=sample_receiver)
              (sample_tick sample_undecoded (exchange_answered 204))
              sample_url InfluxDB 2 true sample_world sample_undecoded)
    as (H1 & H2 & _ & H4); [evaluate|evaluate|right; evaluate|].
  split; [exact H1|]. split; [exact H2|].
  rewrite H4. vm_compute. do 3 right. left. reflexivity.
Defined.


(** C10 on a response of exactly 8192 bytes and a server error, without
    [-V]. *)
Lemma send_quiet_leaves_buffer_unterminated_witness :
  let x := {| handle := true; chunks := one_chunk 8192; transfer_code := CURLE_OK;
              response_code := 500 |} in
  let r := send (P:=sample_platform) (R:=sample_receiver)
             sample_message sample_url REST 7 0 x sample_world in
  exists before after rc,
    trace r = before ++ Curl (EasyPerform rc) :: after /\
    stores before = 0 :: offsets 0 8192 /\
    stores after = [] /\
    (forall i, 0 <= i < 8192 ->
               response_buffer (world r) i = nth (Z.to_nat i) (response (chunks x)) x00) /\
    (500 <> 200 -> In (FputsResponse log) after).
Proof.
  intros x.
  apply (send_quiet_leaves_buffer_unterminated (P:=sample_platform) (R:=sample_receiver)
           sample_message sample_url REST 7 0 x sample_world).
  - evaluate.
  - evaluate.
  - evaluate.
  - evaluate.
  - repeat constructor; evaluate.
  - evaluate.
Defined.

(** C6 as stated does not hold: with the send-all override on, an InfluxDB
    target and two valid readings of one sensor of which the second differs
    in temperature only, the first reading (a new sensor) is sent with the
    full mask 7, the second with the mask of the change tracker,
    [TEMPERATURE_IS_CHANGED] alone. *)
Lemma send_all_passes_partial_mask :
  let ticks := [sample_tick sample_message (exchange_answered 204);
                sample_tick sample_warmer (exchange_answered 204)] in
  let r := main_loop (P:=sample_platform) (R:=sample_receiver)
             ticks sample_url InfluxDB 0 false sample_world in
  sends (trace r) = [(sample_message, InfluxDB, 7); (sample_warmer, InfluxDB, 4)] /\
  full_mask (P:=sample_platform) = 7 /\
  ~ Forall (fun c => snd c = full_mask (P:=sample_platform)) (sends (trace r)).
Proof.
  intros ticks r.
  assert (Hs : sends (trace r) =
               [(sample_message, InfluxDB, 7); (sample_warmer, InfluxDB, 4)])
    by (vm_compute; reflexivity).
  split; [exact Hs|]. split; [reflexivity|].
  rewrite Hs. intros H. inversion H as [|c l _ H2]; subst.
  inversion H2 as [|c' l' H3 _]; subst. vm_compute in H3. discriminate.
Qed.

(** C8 as stated does not hold: an undecoded transmission is reported only
    under [VERBOSITY_INFO].  Without that flag, and also with
    [VERBOSITY_PRINT_UNDECODED] alone, a turn of the loop that receives one
    has no effect at all: nothing is printed, the decoding status included. *)
Lemma undecoded_not_reported :
  let turn verbosity :=
    loop_body (P:=sample_platform) (R:=sample_receiver)
      (sample_tick sample_undecoded (exchange_answered 204))
      sample_url InfluxDB verbosity true sample_world in
  isEmpty (Receiver:=sample_receiver) sample_undecoded = false /\
  isUndecoded (Receiver:=sample_receiver) sample_undecoded = true /\
  trace (turn 0) = [] /\
  trace (turn (VERBOSITY_PRINT_UNDECODED (Platform:=sample_platform))) = [].
Proof.
  intros turn. repeat split; vm_compute; reflexivity.
Qed.

(** * Further properties of [send] and of the loop *)

Section Transfer.

Context {P : Platform}.
Context {Msg Data Sensors : Type} {R : Receiver Msg Data Sensors}.

(** ** The capture, byte by byte *)

(** Whatever the chunks, the offsets a capture has passed hold the bytes of
    the response in order. *)
Lemma deliver_captures (cs : list Chunk) : forall (d : PutData) (w : @World Sensors),
  SERVER_RESPONSE_BUFFER_SIZE < 2 ^ SIZE_BITS ->
  capture_state d ->
  Forall well_formed cs ->
  let r := deliver (Msg:=Msg) cs d w in
  forall i, response_data d <= i < response_data (snd (value r)) ->
            response_buffer (world r) i =
            nth (Z.to_nat (i - response_data d)) (response cs) x00.
Proof.
  induction cs as [|c cs IH]; intros d w Hcap Hd Hwf.
  - cbn [deliver ret value world snd]. intros i Hi. lia.
  - inversion Hwf as [|c' cs' (Hsz & Hptr) Hwf']; subst c' cs'.
    rewrite response_cons.
    cbn [deliver bind value world trace].
    pose proof (write_callback_post (Msg:=Msg) (ptr c) (size c) (nmemb c) d w Hcap Hd) as H1.
    destruct (write_callback_spec (Msg:=Msg) (ptr c) (size c) (nmemb c) d w) as
      (Hk & _ & Hrl & Hrd & _ & Hret & _ & _ & _ & Hmem);
      [destruct Hd as (? & ? & ?); lia|].
    cbv zeta in H1, Hrl, Hrd, Hret, Hmem.
    set (r1 := write_callback (ptr c) (size c) (nmemb c) d w) in *.
    replace (to_size_t (nmemb c * size c)) with (size c * nmemb c) in *
      by (rewrite Z.mul_comm; symmetry; apply to_size_t_small; lia).
    set (k := Z.min (size c * nmemb c) (response_len d)) in *.
    assert (Hd1 : capture_state (snd (value r1))) by apply H1.
    set (rest := (if fst (value r1) =? size c * nmemb c
                  then deliver cs (snd (value r1))
                  else ret (false, snd (value r1))) (world r1)).
    assert (H2 : capture_post (snd (value r1)) (world r1)
                   (snd (value rest)) (world rest) (trace rest)).
    { subst rest. destruct (_ =? _).
      - now apply deliver_post.
      - now apply capture_post_refl. }
    destruct H2 as ((Hd2 & Hl2 & Hsum2) & Hle2 & _ & _ & _ & _ & _ & Hfr).
    destruct Hd as (Hd0 & Hl0 & Hsum). destruct Hd1 as (Hd1a & Hd1b & Hd1c).
    intros i Hi. fold rest in Hi.
    destruct (Z.lt_ge_cases i (response_data d + k)) as [Hlo|Hhi].
    + rewrite Hfr by lia. rewrite Hmem.
      replace ((response_data d <=? i) && (i <? response_data d + k)) with true
        by (symmetry; apply andb_true_intro; split;
            [apply Z.leb_le|apply Z.ltb_lt]; lia).
      rewrite app_nth1 by lia. reflexivity.
    + assert (Hfull : k = size c * nmemb c) by lia.
      assert (Hpos : (0 <? k) = true) by (apply Z.ltb_lt; lia).
      rewrite Hpos in Hret. subst rest. rewrite Hret, Hfull, Z.eqb_refl in *.
      rewrite (IH (snd (value r1)) (world r1) Hcap) by
        (try assumption; try (repeat split; assumption); lia).
      rewrite app_nth2 by lia. f_equal. lia.
Qed.

(** A response that fits into the remaining capacity is taken in full and
    the transfer goes on to its end. *)
Lemma deliver_fits (cs : list Chunk) : forall (d : PutData) (w : @World Sensors),
  SERVER_RESPONSE_BUFFER_SIZE < 2 ^ SIZE_BITS ->
  capture_state d ->
  Forall well_formed cs ->
  Z.of_nat (length (response cs)) <= response_len d ->
  let r := deliver (Msg:=Msg) cs d w in
  fst (value r) = true /\
  response_len (snd (value r)) = response_len d - Z.of_nat (length (response cs)).
Proof.
  induction cs as [|c cs IH]; intros d w Hcap Hd Hwf Hlen.
  - cbn [deliver ret value fst snd response map concat length]. split; [reflexivity|lia].
  - inversion Hwf as [|c' cs' (Hsz & Hptr) Hwf']; subst c' cs'.
    rewrite response_cons, length_app in Hlen. rewrite response_cons, length_app.
    cbn [deliver bind value world trace].
    pose proof (write_callback_post (Msg:=Msg) (ptr c) (size c) (nmemb c) d w Hcap Hd) as H1.
    destruct (write_callback_spec (Msg:=Msg) (ptr c) (size c) (nmemb c) d w) as
      (Hk & _ & Hrl & _ & _ & Hret & _);
      [destruct Hd as (? & ? & ?); lia|].
    cbv zeta in H1, Hrl, Hret.
    set (r1 := write_callback (ptr c) (size c) (nmemb c) d w) in *.
    replace (to_size_t (nmemb c * size c)) with (size c * nmemb c) in *
      by (rewrite Z.mul_comm; symmetry; apply to_size_t_small; lia).
    replace (Z.min (size c * nmemb c) (response_len d)) with (size c * nmemb c) in *
      by lia.
    assert (Hpos : (0 <? size c * nmemb c) = true) by (apply Z.ltb_lt; lia).
    rewrite Hpos in Hret. rewrite Hret, Z.eqb_refl.
    destruct (IH (snd (value r1)) (world r1) Hcap) as (Hok & Hrest);
      [apply H1|exact Hwf'|lia|].
    cbv zeta in Hok, Hrest. split; [exact Hok|]. rewrite Hrest. lia.
Qed.

(** A response longer than the remaining capacity, passed in chunks of more
    than one byte, is cut off: the write function returns less than it was
    given and libcurl aborts the transfer. *)
Lemma deliver_aborts (cs : list Chunk) : forall (d : PutData) (w : @World Sensors),
  SERVER_RESPONSE_BUFFER_SIZE < 2 ^ SIZE_BITS ->
  capture_state d ->
  Forall well_formed cs ->
  Forall (fun c => size c = 1 /\ 2 <= nmemb c) cs ->
  response_len d < Z.of_nat (length (response cs)) ->
  fst (value (deliver (Msg:=Msg) cs d w)) = false.
Proof.
  induction cs as [|c cs IH]; intros d w Hcap Hd Hwf Hbig Hlen.
  - cbn [response map concat length] in Hlen. destruct Hd as (? & ? & ?). lia.
  - inversion Hwf as [|c' cs' (Hsz & Hptr) Hwf']; subst c' cs'.
    inversion Hbig as [|c' cs' (Hone & Htwo) Hbig']; subst c' cs'.
    rewrite response_cons, length_app in Hlen.
    cbn [deliver bind value world trace].
    pose proof (write_callback_post (Msg:=Msg) (ptr c) (size c) (nmemb c) d w Hcap Hd) as H1.
    destruct (write_callback_spec (Msg:=Msg) (ptr c) (size c) (nmemb c) d w) as
      (Hk & _ & Hrl & _ & _ & Hret & _);
      [destruct Hd as (? & ? & ?); lia|].
    cbv zeta in H1, Hrl, Hret.
    set (r1 := write_callback (ptr c) (size c) (nmemb c) d w) in *.
    replace (to_size_t (nmemb c * size c)) with (size c * nmemb c) in *
      by (rewrite Z.mul_comm; symmetry; apply to_size_t_small; lia).
    destruct Hd as (Hd0 & Hl0 & Hsum).
    destruct (Z.le_gt_cases (size c * nmemb c) (response_len d)) as [Hfit|Hover].
    + replace (Z.min (size c * nmemb c) (response_len d)) with (size c * nmemb c) in *
        by lia.
      assert (Hpos : (0 <? size c * nmemb c) = true) by (apply Z.ltb_lt; lia).
      rewrite Hpos in Hret. rewrite Hret, Z.eqb_refl.
      apply IH; try assumption; [apply H1|lia].
    + replace (Z.min (size c * nmemb c) (response_len d)) with (response_len d) in *
        by lia.
      assert (Hne : (fst (value r1) =? size c * nmemb c) = false).
      { apply Z.eqb_neq. rewrite Hret.
        destruct (Z.ltb_spec 0 (response_len d)); lia. }
      rewrite Hne. reflexivity.
Qed.

(** ** [send]: the handle *)

(** X1: when [curl_easy_init] returns no handle, [send] returns false after
    the error line on [stderr]; the only call of libcurl is the failed
    [curl_easy_init], so no option is set, no transfer performed and nothing
    left to release, and the only store into the response buffer is the
    terminator at offset 0. *)
Theorem send_handle_unavailable (message : Msg) (url : string)
  (server_type : ServerType) (changed verbosity : Z) (x : Exchange)
  (w : @World Sensors) :
  0 < fst (encode message server_type changed verbosity
             (snd (clear_data_buffer (data_buffer w)))) ->
  handle x = false ->
  let r := send message url server_type changed verbosity x w in
  value r = false /\
  curl_calls (trace r) = [EasyInit false] /\
  stores (trace r) = [0] /\
  In (Fputs ("ERROR: Failed to get curl handle." ++ LF)%string stderr) (trace r) /\
  log_records (trace r) = [].
Proof.
  intros Hsize Hh r.
  destruct (send_without_handle message url server_type changed verbosity x w Hsize Hh)
    as (Hv & Htr).
  cbv zeta in Hv, Htr. fold r in Hv, Htr. rewrite Htr.
  split; [exact Hv|].
  destruct (flag verbosity VERBOSITY_PRINT_DETAILS); cbn; auto 10.
Qed.

(** X2: a handle that [send] obtained is released exactly once, on every
    path and as the last call on it.  The calls of libcurl made by one call
    of [send] are none at all, or the failed [curl_easy_init] alone, or a
    successful [curl_easy_init], calls among which there is no further
    [curl_easy_init] and no [curl_easy_cleanup], then [curl_easy_cleanup],
    after which nothing but [curl_slist_free_all] is called.  (Nothing is
    said of the header list here.) *)
Theorem send_releases_handle (message : Msg) (url : string)
  (server_type : ServerType) (changed verbosity : Z) (x : Exchange)
  (w : @World Sensors) :
  let calls := curl_calls (trace (send message url server_type changed verbosity x w)) in
  calls = [] \/
  calls = [EasyInit false] \/
  exists mid rest,
    calls = EasyInit true :: mid ++ EasyCleanup :: rest /\
    ~ In EasyCleanup mid /\
    (forall b, ~ In (EasyInit b) mid) /\
    Forall (fun c => c = SlistFreeAll) rest.
Proof.
  intros calls. subst calls.
  destruct (Z.le_gt_cases
              (fst (encode message server_type changed verbosity
                      (snd (clear_data_buffer (data_buffer w))))) 0) as [Hle|Hgt].
  { left.
    destruct (send_payload_missing message url server_type changed verbosity x w Hle)
      as (_ & _ & Htr).
    cbv zeta in Htr. rewrite Htr. case_ifs; reflexivity. }
  destruct (handle x) eqn:Hh.
  2:{ right. left.
      destruct (send_without_handle message url server_type changed verbosity
                  x w Hgt Hh) as (_ & Htr).
      cbv zeta in Htr. rewrite Htr. case_ifs; reflexivity. }
  right. right.
  rewrite (send_exchange_calls message url server_type changed verbosity x w Hgt Hh).
  set (rc := transfer_result x w). clearbody rc.
  set (body := snd _). clearbody body.
  exists ((if flag verbosity VERBOSITY_PRINT_CURL
           then [EasySetopt (CURLOPT_VERBOSE 1)] else []) ++
          match server_type with
          | REST =>
              [SlistAppend "Content-Type: application/json";
               SlistAppend "Accept: application/json";
               SlistAppend "charsets: utf-8";
               SlistAppend "Connection: close";
               EasySetopt (CURLOPT_HTTPHEADER
                 ["Content-Type: application/json"; "Accept: application/json";
                  "charsets: utf-8"; "Connection: close"]%string);
               EasySetopt (CURLOPT_URL url);
               EasySetopt (CURLOPT_CUSTOMREQUEST "PUT")]
          | InfluxDB =>
              [SlistAppend "Content-Type:";
               SlistAppend "Accept:";
               EasySetopt (CURLOPT_HTTPHEADER ["Content-Type:"; "Accept:"]%string);
               EasySetopt (CURLOPT_URL url);
               EasySetopt (CURLOPT_CUSTOMREQUEST "POST")]
          end ++
          [EasySetopt (CURLOPT_POSTFIELDS body);
           EasySetopt CURLOPT_WRITEFUNCTION;
           EasySetopt CURLOPT_WRITEDATA;
           EasyPerform rc;
           EasyGetinfoResponseCode (response_code x)]),
         [SlistFreeAll].
  split; [|split; [|split]].
  - cbn [app]. rewrite <- !app_assoc. reflexivity.
  - rewrite !in_app_iff. case_ifs; cbn [In]; intuition discriminate.
  - intros b. rewrite !in_app_iff. case_ifs; cbn [In]; intuition discriminate.
  - repeat constructor.
Qed.

(** ** [send]: what ends up in the response buffer *)

(** [send] on the exchange path, with the capture summed up: [taken] bytes of
    the response are captured, the smaller of its length and the capacity. *)
Lemma send_capture (message : Msg) (url : string)
  (server_type : ServerType) (changed verbosity : Z) (x : Exchange)
  (w : @World Sensors) :
  0 < SERVER_RESPONSE_BUFFER_SIZE < 2 ^ SIZE_BITS ->
  Forall well_formed (chunks x) ->
  let enc := encode message server_type changed verbosity
               (snd (clear_data_buffer (data_buffer w))) in
  let d0 := {| data := 0; len := to_size_t (fst enc); response_data := 0;
               response_len := to_size_t SERVER_RESPONSE_BUFFER_SIZE;
               verbose := flag verbosity VERBOSITY_PRINT_DETAILS |} in
  let w0 := {| data_buffer := snd enc;
               response_buffer := fun i => if i =? 0 then x00 else response_buffer w i;
               sensorsData := sensorsData w |} in
  let dl := deliver (Msg:=Msg) (chunks x) d0 w0 in
  let taken := Z.min (Z.of_nat (length (response (chunks x)))) SERVER_RESPONSE_BUFFER_SIZE in
  response_len (snd (value dl)) = SERVER_RESPONSE_BUFFER_SIZE - taken /\
  stores (trace dl) = offsets 0 taken /\
  (forall i, 0 <= i < taken ->
             response_buffer (world dl) i = nth (Z.to_nat i) (response (chunks x)) x00) /\
  (forall i, ~ (0 <= i < taken) -> response_buffer (world dl) i = response_buffer w0 i).
Proof.
  intros Hcap Hwf enc d0 w0 dl taken.
  assert (Hd0 : capture_state d0) by (apply send_capture_state; lia).
  assert (Hlt : SERVER_RESPONSE_BUFFER_SIZE < 2 ^ SIZE_BITS) by lia.
  destruct (deliver_post (Msg:=Msg) (chunks x) d0 w0 Hlt Hd0)
    as ((Hrd & Hl & Hsum) & _ & _ & Hs & _ & _ & _ & Hfr).
  pose proof (deliver_captures (chunks x) d0 w0 Hlt Hd0 Hwf) as Hcont.
  cbv zeta in Hcont. fold dl in Hrd, Hl, Hsum, Hs, Hfr, Hcont.
  cbn [d0 response_data] in Hs, Hfr, Hcont.
  assert (Hrl : response_len (snd (value dl)) = SERVER_RESPONSE_BUFFER_SIZE - taken).
  { destruct (Z.le_gt_cases (Z.of_nat (length (response (chunks x))))
                SERVER_RESPONSE_BUFFER_SIZE) as [Hfit|Hover].
    - destruct (deliver_fits (chunks x) d0 w0 Hlt Hd0 Hwf) as (_ & H).
      { cbn [d0 response_len]. rewrite to_size_t_small by lia. exact Hfit. }
      cbv zeta in H. fold dl in H. rewrite H. cbn [d0 response_len].
      rewrite to_size_t_small by lia. subst taken. lia.
    - destruct (deliver_fills (Msg:=Msg) (chunks x) d0 w0 Hlt Hd0 Hwf) as (H & _).
      { cbn [d0 response_len]. rewrite to_size_t_small by lia. lia. }
      cbv zeta in H. fold dl in H. rewrite H. subst taken. lia. }
  assert (Hpos : response_data (snd (value dl)) = taken) by lia.
  rewrite Hpos in *.
  split; [exact Hrl|]. split; [exact Hs|]. split.
  - intros i Hi. rewrite Hcont by lia. now rewrite Z.sub_0_r.
  - intros i Hi. now apply Hfr.
Qed.

(** X3: every store [send] makes through [response_buffer] lies inside the
    buffer when [VERBOSITY_PRINT_DETAILS] is off, whatever the server sends,
    and also with it on as long as the response is shorter than the
    buffer. *)
Theorem send_stores_in_bounds (message : Msg) (url : string)
  (server_type : ServerType) (changed verbosity : Z) (x : Exchange)
  (w : @World Sensors) :
  0 < SERVER_RESPONSE_BUFFER_SIZE < 2 ^ SIZE_BITS ->
  flag verbosity VERBOSITY_PRINT_DETAILS = false \/
  (Forall well_formed (chunks x) /\
   Z.of_nat (length (response (chunks x))) < SERVER_RESPONSE_BUFFER_SIZE) ->
  Forall in_bounds (stores (trace (send message url server_type changed verbosity x w))).
Proof.
  intros Hcap Hcase.
  destruct (Z.le_gt_cases
              (fst (encode message server_type changed verbosity
                      (snd (clear_data_buffer (data_buffer w))))) 0) as [Hle|Hgt].
  { destruct (send_payload_missing message url server_type changed verbosity x w Hle)
      as (_ & _ & Htr).
    cbv zeta in Htr. rewrite Htr. case_ifs; constructor. }
  destruct (handle x) eqn:Hh.
  - destruct Hcase as [Hq|(Hwf & Hshort)].
    + now apply send_quiet_stores_in_bounds.
    + now apply send_short_response_in_bounds.
  - destruct (send_without_handle message url server_type changed verbosity x w Hgt Hh)
      as (_ & Htr).
    cbv zeta in Htr. rewrite Htr.
    case_ifs; cbn; repeat constructor; unfold in_bounds; lia.
Qed.

(** X4: after an exchange the response buffer holds the leading bytes of the
    server response, as many as fit: a longer response is cut off at the
    capacity, and no byte of it is stored elsewhere. *)
Theorem send_captures_prefix (message : Msg) (url : string)
  (server_type : ServerType) (changed verbosity : Z) (x : Exchange)
  (w : @World Sensors) :
  0 < fst (encode message server_type changed verbosity
             (snd (clear_data_buffer (data_buffer w)))) ->
  handle x = true ->
  0 < SERVER_RESPONSE_BUFFER_SIZE ->
  SERVER_RESPONSE_BUFFER_SIZE + 1 < 2 ^ SIZE_BITS ->
  Forall well_formed (chunks x) ->
  let r := send message url server_type changed verbosity x w in
  let taken := Z.min (Z.of_nat (length (response (chunks x)))) SERVER_RESPONSE_BUFFER_SIZE in
  forall i, 0 <= i < taken ->
            response_buffer (world r) i = nth (Z.to_nat i) (response (chunks x)) x00.
Proof.
  intros Hsize Hh Hpos Hcap Hwf r taken i Hi.
  destruct (send_exchange message url server_type changed verbosity x w Hsize Hh)
    as (_ & _ & _ & Hmem & _).
  destruct (send_capture message url server_type changed verbosity x w) as
    (Hrl & _ & Hcont & _); [lia|exact Hwf|].
  cbv zeta in Hmem, Hrl, Hcont. fold r in Hmem. fold taken in Hrl, Hcont.
  rewrite Hmem, Hrl.
  match goal with |- (if ?t && (i =? ?idx) then _ else _) = _ =>
    assert (Hidx : (i =? idx) = false); [|rewrite Hidx, andb_false_r; now apply Hcont]
  end.
  apply Z.eqb_neq.
  destruct (Z.leb_spec (SERVER_RESPONSE_BUFFER_SIZE - taken) 0) as [Hfull|Hpart].
  - assert (Ht : taken = SERVER_RESPONSE_BUFFER_SIZE) by lia.
    rewrite Ht, Z.sub_diag, terminator_index_full by lia. lia.
  - replace (SERVER_RESPONSE_BUFFER_SIZE - (SERVER_RESPONSE_BUFFER_SIZE - taken))
      with taken by lia.
    rewrite to_size_t_small by lia. lia.
Qed.

(** X5: under [VERBOSITY_PRINT_DETAILS], after an exchange whose response is
    shorter than the buffer and does not start with a zero byte, the buffer
    holds the response followed by the terminator: [send] stores the zero
    byte at the offset right behind the last captured byte. *)
Theorem send_terminates_short_response (message : Msg) (url : string)
  (server_type : ServerType) (changed verbosity : Z) (x : Exchange)
  (w : @World Sensors) :
  0 < fst (encode message server_type changed verbosity
             (snd (clear_data_buffer (data_buffer w)))) ->
  handle x = true ->
  flag verbosity VERBOSITY_PRINT_DETAILS = true ->
  SERVER_RESPONSE_BUFFER_SIZE < 2 ^ SIZE_BITS ->
  Forall well_formed (chunks x) ->
  Z.of_nat (length (response (chunks x))) < SERVER_RESPONSE_BUFFER_SIZE ->
  hd x00 (response (chunks x)) <> x00 ->
  let r := send message url server_type changed verbosity x w in
  let total := Z.of_nat (length (response (chunks x))) in
  In (StoreResponse total x00) (trace r) /\
  response_buffer (world r) total = x00 /\
  forall i, 0 <= i < total ->
            response_buffer (world r) i = nth (Z.to_nat i) (response (chunks x)) x00.
Proof.
  intros Hsize Hh Hvb Hcap Hwf Hshort Hfirst r total.
  assert (Htot : 0 < total).
  { subst total. destruct (response (chunks x)); [now elim Hfirst|cbn [length]; lia]. }
  destruct (send_exchange message url server_type changed verbosity x w Hsize Hh)
    as (_ & _ & _ & Hmem & Htr).
  destruct (send_capture message url server_type changed verbosity x w) as
    (Hrl & _ & Hcont & _); [lia|exact Hwf|].
  cbv zeta in Hmem, Htr, Hrl, Hcont. fold r in Hmem, Htr. fold total in Hrl, Hcont.
  replace (Z.min total SERVER_RESPONSE_BUFFER_SIZE) with total in * by lia.
  rewrite Hvb in Hmem, Htr, Hrl, Hcont.
  match type of Htr with context [trace ?t ++ _] => set (dl := t) in * end.
  assert (Hb : Byte.eqb (response_buffer (world dl) 0) x00 = false).
  { rewrite Hcont by lia. cbn [Z.to_nat].
    destruct (response (chunks x)) as [|b l]; [now elim Hfirst|].
    cbn [nth hd] in *. destruct (Byte.eqb b x00) eqn:E; [|reflexivity].
    apply Byte.byte_dec_bl in E. contradiction. }
  assert (Hidx : to_size_t (SERVER_RESPONSE_BUFFER_SIZE -
                   (if response_len (snd (value dl)) <=? 0
                    then to_size_t (response_len (snd (value dl)) - 1)
                    else response_len (snd (value dl)))) = total).
  { rewrite Hrl. replace (SERVER_RESPONSE_BUFFER_SIZE - total <=? 0) with false
      by (symmetry; apply Z.leb_gt; lia).
    replace (SERVER_RESPONSE_BUFFER_SIZE - (SERVER_RESPONSE_BUFFER_SIZE - total))
      with total by lia.
    apply to_size_t_small. lia. }
  rewrite Hb, Hidx in Hmem, Htr. cbn [andb negb] in Hmem, Htr.
  split; [|split].
  - rewrite Htr, !in_app_iff. do 8 right. left. left. reflexivity.
  - rewrite Hmem, Z.eqb_refl. reflexivity.
  - intros i Hi. rewrite Hmem.
    replace (i =? total) with false by (symmetry; apply Z.eqb_neq; lia).
    now apply Hcont.
Qed.

(** The one transfer of a call of [send] that reaches the exchange. *)
Lemma send_exchange_performs (message : Msg) (url : string)
  (server_type : ServerType) (changed verbosity : Z) (x : Exchange)
  (w : @World Sensors) :
  0 < fst (encode message server_type changed verbosity
             (snd (clear_data_buffer (data_buffer w)))) ->
  handle x = true ->
  let enc := encode message server_type changed verbosity
               (snd (clear_data_buffer (data_buffer w))) in
  let d0 := {| data := 0; len := to_size_t (fst enc); response_data := 0;
               response_len := to_size_t SERVER_RESPONSE_BUFFER_SIZE;
               verbose := flag verbosity VERBOSITY_PRINT_DETAILS |} in
  let w0 := {| data_buffer := snd enc;
               response_buffer := fun i => if i =? 0 then x00 else response_buffer w i;
               sensorsData := sensorsData w |} in
  let dl := deliver (Msg:=Msg) (chunks x) d0 w0 in
  let rc := if fst (value dl) then transfer_code x else CURLE_WRITE_ERROR in
  let r := send message url server_type changed verbosity x w in
  performs (trace r) = [rc] /\
  value r = (rc =? CURLE_OK) && (response_code x =? expected_code server_type).
Proof.
  intros Hsize Hh enc d0 w0 dl rc r.
  destruct (send_exchange message url server_type changed verbosity x w Hsize Hh)
    as (Hv & _ & _ & _ & Htr).
  cbv zeta in Hv, Htr. fold enc d0 w0 dl rc r in Hv, Htr.
  split; [|exact Hv].
  pose proof (pick_none _ _ (capture_effect_not_perform _
                (deliver_effects (Msg:=Msg) (chunks x) d0 w0))) as Hnp.
  fold dl in Hnp.
  rewrite Htr. unfold performs. rewrite !pick_app, Hnp.
  clearbody rc. clear. case_ifs; reflexivity.
Qed.

(** X6: an exchange that captures nothing (the server sends no body) leaves
    a zero byte at offset 0 of the response buffer, whatever the buffer held
    from an earlier exchange, and stores nothing else. *)
Theorem send_empty_response (message : Msg) (url : string)
  (server_type : ServerType) (changed verbosity : Z) (x : Exchange)
  (w : @World Sensors) :
  0 < fst (encode message server_type changed verbosity
             (snd (clear_data_buffer (data_buffer w)))) ->
  handle x = true ->
  chunks x = [] ->
  let r := send message url server_type changed verbosity x w in
  response_buffer (world r) 0 = x00 /\
  stores (trace r) = [0] /\
  performs (trace r) = [transfer_code x].
Proof.
  intros Hsize Hh Hc r.
  destruct (send_exchange message url server_type changed verbosity x w Hsize Hh)
    as (_ & _ & _ & Hmem & Htr).
  destruct (send_exchange_performs message url server_type changed verbosity x w Hsize Hh)
    as (Hp & _).
  cbv zeta in Hmem, Htr, Hp. fold r in Hmem, Htr, Hp. rewrite Hc in Hmem, Htr, Hp.
  cbn [deliver ret value world trace fst snd response_buffer] in Hmem, Htr, Hp.
  cbn [Z.eqb Byte.eqb] in Hmem, Htr.
  rewrite andb_false_r in Hmem, Htr.
  split; [now rewrite Hmem|]. split; [|exact Hp].
  rewrite Htr. unfold stores. rewrite !pick_app.
  clear. case_ifs; reflexivity.
Qed.

(** ** [send]: a response that does not fit *)

(** X7: when the server response is longer than the response buffer and
    libcurl passes it in chunks of more than one byte, the write function
    takes less than it is given, libcurl aborts the transfer with
    [CURLE_WRITE_ERROR], and [send] returns false, also when the server
    answered with the expected status. *)
Theorem send_fails_on_long_response (message : Msg) (url : string)
  (server_type : ServerType) (changed verbosity : Z) (x : Exchange)
  (w : @World Sensors) :
  0 < fst (encode message server_type changed verbosity
             (snd (clear_data_buffer (data_buffer w)))) ->
  handle x = true ->
  0 <= SERVER_RESPONSE_BUFFER_SIZE < 2 ^ SIZE_BITS ->
  Forall well_formed (chunks x) ->
  Forall (fun c => size c = 1 /\ 2 <= nmemb c) (chunks x) ->
  SERVER_RESPONSE_BUFFER_SIZE < Z.of_nat (length (response (chunks x))) ->
  let r := send message url server_type changed verbosity x w in
  performs (trace r) = [CURLE_WRITE_ERROR] /\ value r = false.
Proof.
  intros Hsize Hh Hcap Hwf Hbig Hlong r.
  destruct (send_exchange_performs message url server_type changed verbosity x w Hsize Hh)
    as (Hp & Hv).
  cbv zeta in Hp, Hv. fold r in Hp, Hv.
  match type of Hp with
  | context [deliver ?cs ?d ?w0] =>
      pose proof (deliver_aborts cs d w0 (proj2 Hcap)
                    (send_capture_state _ _ Hcap) Hwf Hbig) as Hab;
      set (dl := deliver cs d w0) in *
  end.
  cbn [response_len] in Hab. rewrite to_size_t_small in Hab by assumption.
  rewrite (Hab Hlong) in Hp, Hv.
  split; [exact Hp|rewrite Hv; reflexivity].
Qed.

(** X8: when the server response fits into the response buffer the write
    function takes every chunk in full, so the transfer is not aborted by
    it: the one transfer returns what the transport reports, and [send]
    returns true exactly when that is [CURLE_OK] and the status is the
    expected one. *)
Theorem send_complete_response (message : Msg) (url : string)
  (server_type : ServerType) (changed verbosity : Z) (x : Exchange)
  (w : @World Sensors) :
  0 < fst (encode message server_type changed verbosity
             (snd (clear_data_buffer (data_buffer w)))) ->
  handle x = true ->
  0 <= SERVER_RESPONSE_BUFFER_SIZE < 2 ^ SIZE_BITS ->
  Forall well_formed (chunks x) ->
  Z.of_nat (length (response (chunks x))) <= SERVER_RESPONSE_BUFFER_SIZE ->
  let r := send message url server_type changed verbosity x w in
  performs (trace r) = [transfer_code x] /\
  (value r = true <->
   transfer_code x = CURLE_OK /\ response_code x = expected_code server_type).
Proof.
  intros Hsize Hh Hcap Hwf Hfit r.
  destruct (send_exchange_performs message url server_type changed verbosity x w Hsize Hh)
    as (Hp & Hv).
  cbv zeta in Hp, Hv. fold r in Hp, Hv.
  match type of Hp with
  | context [deliver ?cs ?d ?w0] =>
      pose proof (deliver_fits cs d w0 (proj2 Hcap)
                    (send_capture_state _ _ Hcap) Hwf) as Hok;
      set (dl := deliver cs d w0) in *
  end.
  cbv zeta in Hok. cbn [response_len] in Hok.
  rewrite to_size_t_small in Hok by assumption.
  destruct (Hok Hfit) as (Hgo & _). rewrite Hgo in Hp, Hv.
  split; [exact Hp|].
  rewrite Hv, andb_true_iff, !Z.eqb_eq. reflexivity.
Qed.

End Transfer.

Section Turns.

Context {P : Platform}.
Context {Msg Data Sensors : Type} {R : Receiver Msg Data Sensors}.

Ltac loop_step :=
  cbn [bind when emit ret message_print sensorsData_update value world trace
       fst snd app negb andb orb data_buffer response_buffer sensorsData].

(** ** [send] and the change tracker *)

(** [send] leaves the change tracker alone. *)
Lemma send_sensorsData (message : Msg) (url : string) (server_type : ServerType)
  (changed verbosity : Z) (x : Exchange) (w : @World Sensors) :
  sensorsData (world (send message url server_type changed verbosity x w)) =
  sensorsData w.
Proof.
  destruct (Z.le_gt_cases
              (fst (encode message server_type changed verbosity
                      (snd (clear_data_buffer (data_buffer w))))) 0) as [Hle|Hgt].
  - apply Z.leb_le in Hle. send_unfold.
    destruct (flag verbosity VERBOSITY_PRINT_DETAILS);
      send_step; rewrite Hle; send_step; reflexivity.
  - destruct (handle x) eqn:Hh.
    + now destruct (send_exchange message url server_type changed verbosity x w Hgt Hh)
        as (_ & _ & Hs & _).
    + apply Z.leb_gt in Hgt. send_unfold. rewrite Hh.
      destruct (flag verbosity VERBOSITY_PRINT_DETAILS);
        send_step; rewrite Hgt; send_step; reflexivity.
Qed.

(** One call of [send] performs at most one transfer. *)
Lemma send_performs (message : Msg) (url : string) (server_type : ServerType)
  (changed verbosity : Z) (x : Exchange) (w : @World Sensors) :
  (length (performs (trace (send message url server_type changed verbosity x w))) <= 1)%nat.
Proof.
  destruct (Z.le_gt_cases
              (fst (encode message server_type changed verbosity
                      (snd (clear_data_buffer (data_buffer w))))) 0) as [Hle|Hgt].
  - destruct (send_payload_missing message url server_type changed verbosity x w Hle)
      as (_ & _ & Htr).
    cbv zeta in Htr. rewrite Htr. case_ifs; cbn; lia.
  - destruct (handle x) eqn:Hh.
    + destruct (send_exchange_performs message url server_type changed verbosity x w
                  Hgt Hh) as (Hp & _).
      cbv zeta in Hp. rewrite Hp. cbn. lia.
    + destruct (send_without_handle message url server_type changed verbosity x w Hgt Hh)
        as (_ & Htr).
      cbv zeta in Htr. rewrite Htr. case_ifs; cbn; lia.
Qed.

(** The dispatch of a message: state and transfers. *)
Lemma dispatch_message_world (m : Msg) (url : string) (server_type : ServerType)
  (verbosity : Z) (changes_only : bool) (x : Exchange) (w : @World Sensors) :
  let r := dispatch_message m url server_type verbosity changes_only x w in
  sensorsData (world r) =
    (if negb (isEmpty m) && negb (isUndecoded m) && isValid m
     then snd (update (sensorsData w) (getData m)) else sensorsData w) /\
  (length (performs (trace r)) <= length (sends (trace r)) <= 1)%nat.
Proof.
  intros r. subst r. unfold dispatch_message.
  destruct (isEmpty m); [split; [reflexivity|cbn; lia]|].
  destruct (isUndecoded m).
  { destruct (flag verbosity VERBOSITY_INFO); split; try reflexivity; cbn; lia. }
  cbv zeta. destruct (isValid m); loop_step.
  all: match goal with
       | |- context [negb (?c =? 0)] => destruct (c =? 0)
       end; loop_step.
  all: try (destruct (flag verbosity VERBOSITY_INFO); (split; [reflexivity|cbn; lia])).
  all: match goal with
       | |- context [send ?a ?b ?c ?d ?e ?f ?g] =>
           pose proof (send_sensorsData a b c d e f g) as Hsd;
           pose proof (send_performs a b c d e f g) as Hp;
           pose proof (send_sends a b c d e f g) as Hs;
           set (sent := send a b c d e f g) in *
       end.
  all: destruct (negb (value sent) && flag verbosity VERBOSITY_INFO); loop_step.
  all: unfold performs, sends in *; cbn [pick is_perform is_send];
       rewrite !pick_app, Hs; cbn [pick is_perform is_send app length];
       rewrite ?app_nil_r; split; [exact Hsd|lia].
Qed.

(** X9: one turn of the loop calls [send] at most once and performs at most
    one transfer, and none without a call of [send]; over a whole run the
    transfers are at most as many as the calls of [send], which are at most
    as many as the turns: a reading is sent at most once, never retried. *)
Theorem main_loop_at_most_once (ts : list (@Tick Msg)) :
  forall (url : string) (server_type : ServerType) (verbosity : Z)
         (changes_only : bool) (w : @World Sensors),
  let tr := trace (main_loop ts url server_type verbosity changes_only w) in
  (length (performs tr) <= length (sends tr) <= length ts)%nat.
Proof.
  induction ts as [|t ts IH]; intros url server_type verbosity changes_only w;
    [cbn; lia|].
  cbn [main_loop]. destruct (isStopped t); [cbn; lia|].
  cbn [bind value world trace length]. unfold performs, sends. rewrite !pick_app, !length_app.
  assert (Hbody : (length (pick is_perform
                     (trace (loop_body t url server_type verbosity changes_only w)))
                   <= length (pick is_send
                     (trace (loop_body t url server_type verbosity changes_only w)))
                   <= 1)%nat).
  { destruct (waitForMessage t) as [m|] eqn:Hm.
    - destruct (isStopped_after t) eqn:Hs.
      + unfold loop_body. rewrite Hm, Hs. cbn. lia.
      + destruct (loop_body_trace t url server_type verbosity changes_only w m Hm Hs)
          as (_ & _ & Htr).
        cbv zeta in Htr. rewrite Htr, !pick_app, !length_app.
        destruct (dispatch_message_world m url server_type verbosity changes_only
                    (exchange t) w) as (_ & Hd).
        cbv zeta in Hd. unfold performs, sends in Hd.
        replace (pick is_perform (if flag verbosity VERBOSITY_INFO then _ else _))
          with (@nil Z) by (case_ifs; reflexivity).
        replace (pick is_perform (if checkAndResetTimerEvent t then _ else _))
          with (@nil Z) by (case_ifs; reflexivity).
        replace (pick is_send (if flag verbosity VERBOSITY_INFO then _ else _))
          with (@nil (Msg * ServerType * Z)) by (case_ifs; reflexivity).
        replace (pick is_send (if checkAndResetTimerEvent t then _ else _))
          with (@nil (Msg * ServerType * Z)) by (case_ifs; reflexivity).
        cbn [length]. lia.
    - unfold loop_body. rewrite Hm. destruct (checkAndResetTimerEvent t); cbn; lia. }
  destruct (value (loop_body t url server_type verbosity changes_only w)).
  - cbn [ret trace pick length]. lia.
  - specialize (IH url server_type verbosity changes_only
                  (world (loop_body t url server_type verbosity changes_only w))).
    cbv zeta in IH. unfold performs, sends in IH. lia.
Qed.

(** X10: a turn of the loop that gets a message records it in the change
    tracker exactly when it is decoded and valid, before [send] is called
    and whatever comes of the exchange: a reading whose transmission fails
    counts as seen and is not sent again as a change.  Empty, undecoded and
    invalid messages leave the tracker as it is. *)
Theorem loop_body_tracker (t : Tick) (url : string) (server_type : ServerType)
  (verbosity : Z) (changes_only : bool) (w : @World Sensors) (m : Msg) :
  waitForMessage t = Some m ->
  isStopped_after t = false ->
  sensorsData (world (loop_body t url server_type verbosity changes_only w)) =
    if negb (isEmpty m) && negb (isUndecoded m) && isValid m
    then snd (update (sensorsData w) (getData m)) else sensorsData w.
Proof.
  intros Hm Hs.
  destruct (loop_body_trace t url server_type verbosity changes_only w m Hm Hs)
    as (_ & Hw & _).
  cbv zeta in Hw. rewrite Hw.
  apply (dispatch_message_world m url server_type verbosity changes_only (exchange t) w).
Qed.

(** X11: a turn at which the receiver is stopped, at the loop head or after
    a wait that returned a message, ends the loop without any effect: the
    message is neither echoed nor sent, no statistics are printed, and the
    turns after it do not matter. *)
Theorem main_loop_stops (pre : list (@Tick Msg)) (t : Tick) (rest : list (@Tick Msg)) :
  forall (url : string) (server_type : ServerType) (verbosity : Z)
         (changes_only : bool) (w : @World Sensors),
  isStopped t = true \/
    (isStopped_after t = true /\ exists m, waitForMessage t = Some m) ->
  let stopped := main_loop (pre ++ t :: rest) url server_type verbosity changes_only w in
  let before := main_loop pre url server_type verbosity changes_only w in
  trace stopped = trace before /\ world stopped = world before.
Proof.
  induction pre as [|p pre IH]; intros url server_type verbosity changes_only w Hstop.
  - cbn [app main_loop]. destruct (isStopped t) eqn:Ht; [split; reflexivity|].
    destruct Hstop as [Hs|(Hs & m & Hm)]; [discriminate|].
    unfold loop_body. rewrite Hm, Hs. split; reflexivity.
  - cbn [app main_loop]. destruct (isStopped p); [split; reflexivity|].
    cbn [bind value world trace].
    destruct (value (loop_body p url server_type verbosity changes_only w));
      [split; reflexivity|].
    destruct (IH url server_type verbosity changes_only
                (world (loop_body p url server_type verbosity changes_only w)) Hstop)
      as (Htr & Hw).
    cbv zeta in Htr, Hw. rewrite Htr, Hw. split; reflexivity.
Qed.

End Turns.

(** * Start-up of [main] *)

(** ** The C library on strings *)

Lemma uchar_inj (a b : ascii) : uchar a = uchar b -> a = b.
Proof.
  unfold uchar. intros H. apply N2Z.inj in H.
  rewrite <- (ascii_N_embedding a), <- (ascii_N_embedding b). now rewrite H.
Qed.

Lemma uchar_zero (c : ascii) : uchar c = 0 -> c = Ascii.zero.
Proof. intros H. apply uchar_inj. exact H. Qed.

Lemma tolower_zero (c : ascii) : tolower c = Ascii.zero -> c = Ascii.zero.
Proof.
  destruct c as [[] [] [] [] [] [] [] []]; intros H; vm_compute in H;
    try discriminate H; reflexivity.
Qed.

Lemma uchar_diff (a b : ascii) : a <> b -> (uchar a - uchar b =? 0) = false.
Proof.
  intros H. apply Z.eqb_neq. intros E. apply H. apply uchar_inj. lia.
Qed.

(** [strncmp] finds no difference over the length of a literal exactly when
    the literal is a prefix. *)
Lemma strncmp_prefix (p : string) : forall s : string,
  no_zero p -> (strncmp s p (String.length p) =? 0) = prefix p s.
Proof.
  induction p as [|c p IH]; intros s Hp; [now destruct s|].
  destruct Hp as (Hc & Hp).
  destruct s as [|c1 s]; cbn [String.length strncmp prefix].
  - apply Z.eqb_neq. intros E. apply Hc. apply uchar_zero. lia.
  - destruct (Ascii.eqb_spec c1 c) as [->|Hne].
    + destruct (ascii_dec c c) as [_|Hn]; [now apply IH|now elim Hn].
    + destruct (ascii_dec c c1) as [->|_]; [now elim Hne|now apply uchar_diff].
Qed.

(** [strcasecmp] finds no difference exactly when the two strings are equal
    up to the case of their letters. *)
Lemma strcasecmp_lowercase (a : string) : forall b : string,
  no_zero a -> no_zero b ->
  (strcasecmp a b =? 0) = String.eqb (lowercase a) (lowercase b).
Proof.
  induction a as [|c a IH]; intros [|c' b] Ha Hb; cbn [strcasecmp lowercase String.eqb].
  - reflexivity.
  - destruct Hb as (Hc & _). apply Z.eqb_neq. intros E. apply Hc.
    apply tolower_zero, uchar_zero. lia.
  - destruct Ha as (Hc & _). apply Z.eqb_neq. intros E. apply Hc.
    apply tolower_zero, uchar_zero. exact E.
  - destruct Ha as (_ & Ha). destruct Hb as (_ & Hb).
    destruct (Ascii.eqb_spec (tolower c) (tolower c')) as [E|Hne].
    + now apply IH.
    + now apply uchar_diff.
Qed.

Section MainProperties.

Context {P : Platform} {L : Libc}.
Context {Msg Data Sensors : Type} {R : Receiver Msg Data Sensors}.

(** ** Verbosity flags *)

Lemma flag_lor_l (v X F : Z) : flag v F = true -> flag (Z.lor v X) F = true.
Proof.
  unfold flag. rewrite !negb_true_iff, !Z.eqb_neq, Z.land_lor_distr_l.
  intros H E. apply Z.lor_eq_0_iff in E. now apply H.
Qed.

Lemma flag_lor_r (v X F : Z) : flag X F = true -> flag (Z.lor v X) F = true.
Proof. rewrite Z.lor_comm. apply flag_lor_l. Qed.

Lemma flag_self (F : Z) : F <> 0 -> flag F F = true.
Proof.
  intros H. unfold flag. now rewrite Z.land_diag, negb_true_iff, Z.eqb_neq.
Qed.

(** ** The options *)

(** What one option changes. *)
Lemma option_case_keeps (o : Getopt) (l l' : Locals) :
  option_case (Msg:=Msg) o l = inr l' ->
  (forall F, flag (verbosity l) F = true -> flag (verbosity l') F = true) /\
  (changes_only l = false -> changes_only l' = false) /\
  (1 <= gpio l <= 53 -> 1 <= gpio l' <= 53) /\
  (server_url l' = server_url l \/
   (opt o = "s"%char /\ server_url l' = Some (optarg o))).
Proof.
  unfold option_case. cbv zeta.
  repeat match goal with
         | |- context [Ascii.eqb (opt o) ?c] => destruct (Ascii.eqb_spec (opt o) c)
         | |- context [if ?b then _ else _] => destruct b eqn:?
         end;
    intros H; inversion H; subst; clear H; cbn [verbosity changes_only gpio server_url];
    repeat split; auto using flag_lor_l; try lia.
  all: apply orb_false_iff in Heqb; destruct Heqb as (H1 & H2);
    apply Z.leb_gt in H1; apply Z.ltb_ge in H2; lia.
Qed.

Lemma parse_options_keeps (os : list Getopt) : forall l l' : Locals,
  parse_options (Msg:=Msg) os l = inr l' ->
  (forall F, flag (verbosity l) F = true -> flag (verbosity l') F = true) /\
  (changes_only l = false -> changes_only l' = false) /\
  (1 <= gpio l <= 53 -> 1 <= gpio l' <= 53) /\
  (server_url l' = server_url l \/
   exists o, In o os /\ opt o = "s"%char /\ server_url l' = Some (optarg o)).
Proof.
  induction os as [|o os IH]; intros l l' H; cbn [parse_options] in H.
  - inversion H; subst. repeat split; auto; lia.
  - destruct (option_case o l) as [steps|l1] eqn:Ho; [discriminate|].
    destruct (option_case_keeps o l l1 Ho) as (Hf & Hc & Hg & Hu).
    destruct (IH l1 l' H) as (Hf' & Hc' & Hg' & Hu').
    split; [auto|]. split; [auto|]. split; [auto|].
    destruct Hu' as [Hu'|(o' & Hin & Ho' & Hu')].
    + destruct Hu as [Hu|(Hs & Hu)].
      * left. congruence.
      * right. exists o. split; [now left|]. split; [exact Hs|congruence].
    + right. exists o'. split; [now right|]. now split.
Qed.

Lemma option_case_exit (o : Getopt) (l : Locals) (steps : list Step) :
  option_case (Msg:=Msg) o l = inl steps -> usage_exit steps.
Proof.
  unfold option_case, usage_exit. cbv zeta.
  repeat match goal with
         | |- context [Ascii.eqb (opt o) ?c] => destruct (Ascii.eqb (opt o) c)
         | |- context [if ?b then _ else _] => destruct b
         end;
    intros H; inversion H; subst; clear H; eauto 8.
Qed.

Lemma parse_options_exit (os : list Getopt) : forall (l : Locals) (steps : list Step),
  parse_options (Msg:=Msg) os l = inl steps -> usage_exit steps.
Proof.
  induction os as [|o os IH]; intros l steps H; cbn [parse_options] in H;
    [discriminate|].
  destruct (option_case o l) as [s|l1] eqn:Ho.
  - inversion H; subst. eapply option_case_exit; eassumption.
  - eapply IH; eassumption.
Qed.

Lemma configure_exit (inv : Invocation) (steps : list Step) :
  configure (Msg:=Msg) inv = inl steps -> usage_exit steps.
Proof.
  unfold configure. destruct (argc inv =? 1); [intros H; inversion H; now left|].
  destruct (parse_options (getopt_long inv) initial_locals) as [s|l] eqn:Hp.
  { intros H; inversion H; subst. eapply parse_options_exit; eassumption. }
  cbv zeta.
  destruct (arguments inv) as [|a [|b rest]];
    [| |intros H; inversion H; now left].
  all: match goal with
       | |- context [match server_url ?l0 with _ => _ end] =>
           destruct (server_url l0) as [[|c u]|]
       end.
  all: repeat match goal with
              | |- context [if ?b then _ else _] => destruct b
              end;
    intros H; inversion H; subst; clear H; unfold usage_exit; eauto 8.
Qed.

Lemma exit_status_app (a b : list (@Step Msg)) :
  exit_status (a ++ b) =
  match exit_status a with Some n => Some n | None => exit_status b end.
Proof.
  induction a as [|s a IH]; [reflexivity|]. destruct s; cbn; auto.
Qed.

Lemma exit_status_effects (tr : list (@Effect Msg)) : exit_status (map Eff tr) = None.
Proof. induction tr; cbn; auto. Qed.

(** ** Leaving with status 1 *)

(** X12: whenever [main] leaves with status 1 it has done so through
    [help()] during the handling of its arguments, and all it has done is to
    write to [stderr], the usage included: no log file is opened, libcurl is
    not initialised, no buffer allocated, the receiver not started and no
    message handled. *)
Theorem main_usage_error (inv : Invocation) (w : @World Sensors) :
  exit_status (main inv w) = Some 1 ->
  (exists steps, configure inv = inl steps) /\
  Forall (fun s => machinery s = false) (main inv w) /\
  In (Eff (Fputs help_text stderr)) (main inv w).
Proof.
  unfold main. destruct (configure inv) as [steps|l] eqn:Hc.
  - intros _. split; [eauto|].
    destruct (configure_exit inv steps Hc) as [->|(e & -> & [(s & ->)|(f & a & ->)])];
      split; cbn; auto 10; repeat constructor.
  - intros H. exfalso. cbn [app exit_status] in H.
    rewrite !exit_status_app, exit_status_effects in H.
    repeat match type of H with
           | context [if ?b then _ else _] => destruct b
           end; cbn in H; discriminate.
Qed.

(** ** The configuration [main] goes on with *)

(** The URL that passes the checks of [main] has one of the two schemes. *)
Lemma configure_scheme (inv : Invocation) (l : Locals) :
  configure (Msg:=Msg) inv = inr l ->
  exists url,
    server_url l = Some url /\
    (prefix "http://" url = true \/ prefix "https://" url = true).
Proof.
  unfold configure. destruct (argc inv =? 1); [discriminate|].
  destruct (parse_options (getopt_long inv) initial_locals) as [s|l0];
    [discriminate|].
  cbv zeta.
  destruct (arguments inv) as [|a [|b rest]]; [| |discriminate].
  all: match goal with
       | |- context [match server_url ?l1 with _ => _ end] =>
           destruct (server_url l1) as [[|c u]|] eqn:Hu; try discriminate
       end.
  all: destruct (strncmp (String c u) "http://" 7 =? 0) eqn:E1;
       destruct (strncmp (String c u) "https://" 8 =? 0) eqn:E2;
       cbn [negb andb]; try discriminate.
  all: intros H; inversion H; subst; clear H; cbn [server_url] in *.
  all: exists (String c u); (split; [reflexivity|]).
  all: rewrite <- (strncmp_prefix "http://"), <- (strncmp_prefix "https://")
         by (cbn; repeat split; discriminate);
       cbn [String.length]; rewrite E1, E2; auto.
Qed.

(** X13: when the handling of the arguments does not end in [help()], the
    server URL is set and begins with [http://] or [https://], the path of
    the log file is set and not empty, and the GPIO pin is between 1 and
    53. *)
Theorem configure_valid (inv : Invocation) (l : Locals) :
  configure (Msg:=Msg) inv = inr l ->
  exists url path,
    server_url l = Some url /\
    (prefix "http://" url = true \/ prefix "https://" url = true) /\
    log_file_path l = Some path /\ path <> EmptyString /\
    1 <= gpio l <= 53.
Proof.
  unfold configure. destruct (argc inv =? 1); [discriminate|].
  destruct (parse_options (getopt_long inv) initial_locals) as [s|l0] eqn:Hp;
    [discriminate|].
  destruct (parse_options_keeps _ _ _ Hp) as (_ & _ & Hg & _).
  assert (Hgpio : 1 <= gpio l0 <= 53) by (apply Hg; cbn; lia). clear Hg.
  cbv zeta.
  destruct (arguments inv) as [|a [|b rest]]; [| |discriminate].
  all: match goal with
       | |- context [match server_url ?l1 with _ => _ end] =>
           destruct (server_url l1) as [[|c u]|] eqn:Hu; try discriminate
       end.
  all: destruct (strncmp (String c u) "http://" 7 =? 0) eqn:E1;
       destruct (strncmp (String c u) "https://" 8 =? 0) eqn:E2;
       cbn [negb andb]; try discriminate.
  all: intros H; inversion H; subst; clear H;
       cbn [server_url log_file_path gpio] in *.
  all: assert (Hscheme : prefix "http://" (String c u) = true \/
                         prefix "https://" (String c u) = true)
         by (rewrite <- (strncmp_prefix "http://"), <- (strncmp_prefix "https://")
               by (cbn; repeat split; discriminate);
             cbn [String.length]; rewrite E1, E2; auto).
  all: destruct (log_file_path l0) as [[|c' p]|];
       exists (String c u); eexists; (split; [reflexivity|]); (split; [exact Hscheme|]);
       (split; [reflexivity|]); (split; [discriminate|assumption]).
Qed.

(** X14: the server URL [main] goes on with is the argument left after the
    options when there is one, whatever [-s] options were given, and
    otherwise the value of a [-s] option; with more than one argument left
    [main] does not go on. *)
Theorem configure_server_url (inv : Invocation) (l : Locals) :
  configure (Msg:=Msg) inv = inr l ->
  match arguments inv with
  | [] => exists o, In o (getopt_long inv) /\ opt o = "s"%char /\
                    server_url l = Some (optarg o)
  | [a] => server_url l = Some a
  | _ => False
  end.
Proof.
  unfold configure. destruct (argc inv =? 1); [discriminate|].
  destruct (parse_options (getopt_long inv) initial_locals) as [s|l0] eqn:Hp;
    [discriminate|].
  destruct (parse_options_keeps _ _ _ Hp) as (_ & _ & _ & Hs).
  cbv zeta.
  destruct (arguments inv) as [|a [|b rest]]; [| |discriminate].
  all: match goal with
       | |- context [match server_url ?l1 with _ => _ end] =>
           destruct (server_url l1) as [[|c u]|] eqn:Hu; try discriminate
       end.
  all: match goal with
       | |- context [if ?b then _ else _] => destruct b; try discriminate
       end.
  all: intros H; inversion H; subst; clear H; cbn [server_url] in *.
  - destruct Hs as [Hs|(o & Hin & Ho & Hs)]; [cbn in Hs; congruence|].
    exists o. repeat split; auto; congruence.
  - now symmetry.
Qed.

(** X15: the value of the option [-t] is matched without regard to the case
    of its letters: it selects REST when it reads [rest] in lower case,
    InfluxDB when it reads [influxdb], and any other value ends in
    [help()]. *)
Theorem server_type_option (o : Getopt) (l : Locals) :
  opt o = "t"%char ->
  no_zero (optarg o) ->
  match option_case (Msg:=Msg) o l with
  | inr l' =>
      (lowercase (optarg o) = "rest" /\ server_type l' = REST) \/
      (lowercase (optarg o) = "influxdb" /\ server_type l' = InfluxDB)
  | inl _ =>
      lowercase (optarg o) <> "rest" /\ lowercase (optarg o) <> "influxdb"
  end.
Proof.
  intros Ho Hz. unfold option_case. rewrite Ho. cbv zeta. cbn [Ascii.eqb Bool.eqb andb].
  rewrite !strcasecmp_lowercase by (try assumption; cbn; repeat split; discriminate).
  change (lowercase "REST") with "rest". change (lowercase "InfluxDB") with "influxdb".
  destruct (String.eqb_spec (lowercase (optarg o)) "rest") as [E1|N1].
  - left. now split.
  - destruct (String.eqb_spec (lowercase (optarg o)) "influxdb") as [E2|N2].
    + right. now split.
    + now split.
Qed.

(** ** Options add up *)

Lemma option_case_sets (o : Getopt) (l l' : Locals) :
  option_case (Msg:=Msg) o l = inr l' ->
  (opt o = "A"%char -> changes_only l' = false) /\
  (opt o = "v"%char -> VERBOSITY_INFO <> 0 -> flag (verbosity l') VERBOSITY_INFO = true) /\
  (opt o = "T"%char -> VERBOSITY_PRINT_STATISTICS <> 0 ->
   flag (verbosity l') VERBOSITY_PRINT_STATISTICS = true) /\
  (opt o = "V"%char ->
   forall F, In F [VERBOSITY_INFO; VERBOSITY_PRINT_JSON; VERBOSITY_PRINT_CURL;
                   VERBOSITY_PRINT_UNDECODED; VERBOSITY_PRINT_DETAILS] ->
             F <> 0 -> flag (verbosity l') F = true).
Proof.
  unfold option_case. cbv zeta.
  repeat match goal with
         | |- context [Ascii.eqb (opt o) ?c] => destruct (Ascii.eqb_spec (opt o) c)
         | |- context [if ?b then _ else _] => destruct b
         end;
    intros H; inversion H; subst; clear H; cbn [verbosity changes_only];
    repeat split; try congruence; intros.
  all: try (apply flag_lor_r, flag_self; assumption).
  cbn [In] in *.
  repeat match goal with
         | H : _ \/ _ |- _ => destruct H as [H|H]
         | H : False |- _ => destruct H
         end; subst; auto 8 using flag_lor_l, flag_lor_r, flag_self.
Qed.

(** X16: options only add to what earlier options set.  After the options
    are handled, a verbosity flag set before is still set and a send-all
    request still stands; every [-A] among them has switched [changes_only]
    off, and every [-v], [-T] and [-V] has set its flags: [-V] all of
    [VERBOSITY_INFO], [VERBOSITY_PRINT_JSON], [VERBOSITY_PRINT_CURL],
    [VERBOSITY_PRINT_UNDECODED] and [VERBOSITY_PRINT_DETAILS] (each when the
    macro is not 0). *)
Theorem options_accumulate (os : list Getopt) : forall l l' : Locals,
  parse_options (Msg:=Msg) os l = inr l' ->
  (forall F, flag (verbosity l) F = true -> flag (verbosity l') F = true) /\
  (changes_only l = false -> changes_only l' = false) /\
  forall o, In o os ->
    (opt o = "A"%char -> changes_only l' = false) /\
    (opt o = "v"%char -> VERBOSITY_INFO <> 0 -> flag (verbosity l') VERBOSITY_INFO = true) /\
    (opt o = "T"%char -> VERBOSITY_PRINT_STATISTICS <> 0 ->
     flag (verbosity l') VERBOSITY_PRINT_STATISTICS = true) /\
    (opt o = "V"%char ->
     forall F, In F [VERBOSITY_INFO; VERBOSITY_PRINT_JSON; VERBOSITY_PRINT_CURL;
                     VERBOSITY_PRINT_UNDECODED; VERBOSITY_PRINT_DETAILS] ->
               F <> 0 -> flag (verbosity l') F = true).
Proof.
  induction os as [|o os IH]; intros l l' H.
  - destruct (parse_options_keeps [] l l' H) as (Hf & Hc & _).
    split; [exact Hf|]. split; [exact Hc|]. intros o [].
  - destruct (parse_options_keeps (o :: os) l l' H) as (Hf & Hc & _).
    split; [exact Hf|]. split; [exact Hc|].
    cbn [parse_options] in H.
    destruct (option_case o l) as [steps|l1] eqn:Ho; [discriminate|].
    destruct (parse_options_keeps os l1 l' H) as (Hf1 & Hc1 & _).
    intros o' [<-|Hin].
    + destruct (option_case_sets o l l1 Ho) as (HA & Hv & HT & HV).
      repeat split; intros; auto.
    + now apply (IH l1 l' H).
Qed.

End MainProperties.

Section EndToEnd.

Context {P : Platform} {L : Libc}.
Context {Msg Data Sensors : Type} {R : Receiver Msg Data Sensors}.

(** ** The URL of every transfer *)

Lemma pick_In {A B} (f : A -> option B) (l : list A) (a : A) (b : B) :
  In a l -> f a = Some b -> In b (pick f l).
Proof.
  induction l as [|a' l IH]; [intros []|].
  intros [->|Hin] Hf; cbn [pick].
  - rewrite Hf. now left.
  - destruct (f a'); [right|]; now apply IH.
Qed.

(** The only URL [send] sets on a handle is the one it is called with. *)
Lemma send_urls (message : Msg) (url : string) (server_type : ServerType)
  (changed verbosity : Z) (x : Exchange) (w : @World Sensors) (u : string) :
  In (CURLOPT_URL u)
     (setopts (trace (send message url server_type changed verbosity x w))) ->
  u = url.
Proof.
  destruct (Z.le_gt_cases
              (fst (encode message server_type changed verbosity
                      (snd (clear_data_buffer (data_buffer w))))) 0) as [Hle|Hgt].
  - destruct (send_payload_missing message url server_type changed verbosity x w Hle)
      as (_ & _ & Htr).
    cbv zeta in Htr. rewrite Htr. case_ifs; intros [].
  - destruct (handle x) eqn:Hh.
    + rewrite (send_exchange_setopts message url server_type changed verbosity x w Hgt Hh).
      rewrite !in_app_iff. case_ifs; cbn [In]; intuition congruence.
    + destruct (send_without_handle message url server_type changed verbosity x w Hgt Hh)
        as (_ & Htr).
      cbv zeta in Htr. rewrite Htr. case_ifs; cbn; intuition congruence.
Qed.

Lemma dispatch_message_urls (m : Msg) (url : string) (server_type : ServerType)
  (verbosity : Z) (changes_only : bool) (x : Exchange) (w : @World Sensors) (u : string) :
  In (CURLOPT_URL u)
     (setopts (trace (dispatch_message m url server_type verbosity changes_only x w))) ->
  u = url.
Proof.
  destruct (isEmpty m) eqn:He.
  { unfold dispatch_message. rewrite He. intros []. }
  destruct (isUndecoded m) eqn:Hu.
  { unfold dispatch_message. rewrite He, Hu.
    destruct (flag verbosity VERBOSITY_INFO); intros []. }
  rewrite (dispatch_message_decoded m url server_type verbosity changes_only x w He Hu).
  cbv zeta.
  match goal with |- context [if ?c =? 0 then _ else _] => destruct (c =? 0) end.
  { case_ifs; intros []. }
  unfold setopts. cbn [pick is_setopt]. rewrite pick_app, in_app_iff.
  intros [H|H].
  - eapply send_urls. exact H.
  - revert H. case_ifs; intros [].
Qed.

Lemma main_loop_urls (ts : list (@Tick Msg)) :
  forall (url : string) (server_type : ServerType) (verbosity : Z)
         (changes_only : bool) (w : @World Sensors) (u : string),
  In (CURLOPT_URL u)
     (setopts (trace (main_loop ts url server_type verbosity changes_only w))) ->
  u = url.
Proof.
  induction ts as [|t ts IH]; intros url server_type verbosity changes_only w u;
    [intros []|].
  cbn [main_loop]. destruct (isStopped t); [intros []|].
  cbn [bind value world trace]. unfold setopts. rewrite pick_app, in_app_iff.
  intros [H|H].
  - revert H. destruct (waitForMessage t) as [m|] eqn:Hm.
    + destruct (isStopped_after t) eqn:Hs.
      * unfold loop_body. rewrite Hm, Hs. intros [].
      * destruct (loop_body_trace t url server_type verbosity changes_only w m Hm Hs)
          as (_ & _ & Htr).
        cbv zeta in Htr. rewrite Htr, !pick_app, !in_app_iff.
        intros [H|[H|H]].
        -- revert H. case_ifs; intros [].
        -- eapply dispatch_message_urls. exact H.
        -- revert H. case_ifs; intros [].
    + unfold loop_body. rewrite Hm. destruct (checkAndResetTimerEvent t); intros [].
  - revert H. destruct (value _); [intros []|]. apply IH.
Qed.

(** X17: every URL that [main] sets on a libcurl handle, in whatever run, is
    the server URL it went on with after the handling of its arguments, and
    so begins with [http://] or [https://]. *)
Theorem main_urls (inv : Invocation) (w : @World Sensors) (u : string) :
  In (Eff (Curl (EasySetopt (CURLOPT_URL u)))) (main inv w) ->
  (exists l, configure inv = inr l /\ server_url l = Some u) /\
  (prefix "http://" u = true \/ prefix "https://" u = true).
Proof.
  unfold main. destruct (configure inv) as [steps|l] eqn:Hc.
  - intros H. exfalso.
    destruct (configure_exit inv steps Hc) as [->|(e & -> & [(s & ->)|(f & a & ->)])];
      cbn in H; intuition discriminate.
  - destruct (configure_scheme inv l Hc) as (url & Hu & Hscheme).
    rewrite Hu. cbn [unwrap]. intros H.
    assert (Hin : In (Curl (EasySetopt (CURLOPT_URL u)))
                    (trace (main_loop (ticks inv) url (server_type l) (verbosity l)
                              (changes_only l) w))).
    { cbn [app In] in H.
      repeat match type of H with
             | _ \/ _ => destruct H as [H|H]; [discriminate H|]
             end.
      rewrite !in_app_iff in H.
      destruct H as [H|[H|[H|H]]].
      - revert H. case_ifs; cbn; intuition discriminate.
      - revert H. case_ifs; cbn; intuition discriminate.
      - apply in_map_iff in H. destruct H as (e & He & Hin).
        inversion He; subst. exact Hin.
      - revert H. case_ifs; cbn; intuition discriminate. }
    assert (u = url).
    { eapply main_loop_urls. eapply pick_In; [exact Hin|reflexivity]. }
    subst u. split; [eauto|exact Hscheme].
Qed.

End EndToEnd.

(** * The additional properties on concrete inputs *)

(** X1 with no handle to be had. *)
Lemma send_handle_unavailable_witness :
  let x := {| handle := false; chunks := []; transfer_code := CURLE_OK;
              response_code := 0 |} in
  let r := send (P:=sample_platform) (R:=sample_receiver)
             sample_message sample_url REST 7 0 x sample_world in
  value r = false /\ curl_calls (trace r) = [EasyInit false].
Proof.
  intros x.
  destruct (send_handle_unavailable (P:=sample_platform) (R:=sample_receiver)
              sample_message sample_url REST 7 0 x sample_world)
    as (H1 & H2 & _); [evaluate|evaluate|].
  split; [exact H1|exact H2].
Defined.

(** X3 on a response of 10000 bytes, without [-V]. *)
Lemma send_stores_in_bounds_witness :
  let x := {| handle := true; chunks := one_chunk 10000; transfer_code := CURLE_OK;
              response_code := 200 |} in
  Forall (in_bounds (P:=sample_platform))
    (stores (trace (send (P:=sample_platform) (R:=sample_receiver)
                      sample_message sample_url REST 7 0 x sample_world))).
Proof.
  intros x.
  apply (send_stores_in_bounds (P:=sample_platform) (R:=sample_receiver)
           sample_message sample_url REST 7 0 x sample_world).
  - evaluate.
  - left. evaluate.
Defined.

(** X4 on a response of 10000 bytes: the last byte of the buffer holds the
    byte 8191 of the response. *)
Lemma send_captures_prefix_witness :
  let x := {| handle := true; chunks := one_chunk 10000; transfer_code := CURLE_OK;
              response_code := 200 |} in
  let r := send (P:=sample_platform) (R:=sample_receiver)
             sample_message sample_url REST 7 0 x sample_world in
  response_buffer (world r) 8191 = nth (Z.to_nat 8191) (response (chunks x)) x00.
Proof.
  intros x.
  apply (send_captures_prefix (P:=sample_platform) (R:=sample_receiver)
           sample_message sample_url REST 7 0 x sample_world).
  - evaluate.
  - evaluate.
  - evaluate.
  - evaluate.
  - repeat constructor; evaluate.
  - evaluate.
Defined.

(** X5 on a two-byte response, with [-V]. *)
Lemma send_terminates_short_response_witness :
  let r := send (P:=sample_platform) (R:=sample_receiver)
             sample_message sample_url REST 7 4 (exchange_answered 200) sample_world in
  In (StoreResponse 2 x00) (trace r) /\ response_buffer (world r) 2 = x00.
Proof.
  destruct (send_terminates_short_response (P:=sample_platform) (R:=sample_receiver)
              sample_message sample_url REST 7 4 (exchange_answered 200) sample_world)
    as (H1 & H2 & _).
  - evaluate.
  - evaluate.
  - evaluate.
  - evaluate.
  - repeat constructor; evaluate.
  - evaluate.
  - evaluate.
  - split; [exact H1|exact H2].
Defined.

(** X6 on a refused connection. *)
Lemma send_empty_response_witness :
  let r := send (P:=sample_platform) (R:=sample_receiver)
             sample_message sample_url REST 7 0 exchange_refused sample_world in
  response_buffer (world r) 0 = x00 /\ stores (trace r) = [0] /\
  performs (trace r) = [7].
Proof.
  apply (send_empty_response (P:=sample_platform) (R:=sample_receiver)
           sample_message sample_url REST 7 0 exchange_refused sample_world).
  - evaluate.
  - evaluate.
  - evaluate.
Defined.

(** X7 on a response of 10000 bytes and the status 200 from a REST
    server. *)
Lemma send_fails_on_long_response_witness :
  let x := {| handle := true; chunks := one_chunk 10000; transfer_code := CURLE_OK;
              response_code := 200 |} in
  let r := send (P:=sample_platform) (R:=sample_receiver)
             sample_message sample_url REST 7 0 x sample_world in
  performs (trace r) = [CURLE_WRITE_ERROR] /\ value r = false.
Proof.
  intros x.
  apply (send_fails_on_long_response (P:=sample_platform) (R:=sample_receiver)
           sample_message sample_url REST 7 0 x sample_world).
  - evaluate.
  - evaluate.
  - evaluate.
  - repeat constructor; evaluate.
  - repeat constructor; evaluate.
  - evaluate.
Defined.

(** X8 on a two-byte response and the status 204 from an InfluxDB server. *)
Lemma send_complete_response_witness :
  let r := send (P:=sample_platform) (R:=sample_receiver)
             sample_message sample_url InfluxDB 7 0 (exchange_answered 204) sample_world in
  performs (trace r) = [CURLE_OK] /\
  (value r = true <-> CURLE_OK = CURLE_OK /\ 204 = 204).
Proof.
  apply (send_complete_response (P:=sample_platform) (R:=sample_receiver)
           sample_message sample_url InfluxDB 7 0 (exchange_answered 204) sample_world).
  - evaluate.
  - evaluate.
  - evaluate.
  - repeat constructor; evaluate.
  - evaluate.
Defined.

(** X10 on a valid reading whose transmission is refused. *)
Lemma loop_body_tracker_witness :
  sensorsData (world (loop_body (P:=sample_platform) (R:=sample_receiver)
                        (sample_tick sample_message exchange_refused)
                        sample_url InfluxDB 0 true sample_world)) =
  [sample_message].
Proof.
  apply (loop_body_tracker (P:=sample_platform) (R:=sample_receiver)
           (sample_tick sample_message exchange_refused)
           sample_url InfluxDB 0 true sample_world sample_message).
  - evaluate.
  - evaluate.
Defined.

(** X11 on a run of one reading, the stop, and a reading that comes too
    late. *)
Lemma main_loop_stops_witness :
  let first := [sample_tick sample_message (exchange_answered 204)] in
  let late := [sample_tick sample_warmer (exchange_answered 204)] in
  trace (main_loop (P:=sample_platform) (R:=sample_receiver)
           (first ++ stop_tick :: late) sample_url InfluxDB 0 true sample_world) =
  trace (main_loop (P:=sample_platform) (R:=sample_receiver)
           first sample_url InfluxDB 0 true sample_world).
Proof.
  intros first late.
  apply (main_loop_stops (P:=sample_platform) (R:=sample_receiver)
           first stop_tick late sample_url InfluxDB 0 true sample_world).
  left. evaluate.
Defined.

(** X12 on a URL that is not HTTP. *)
Lemma main_usage_error_witness :
  Forall (fun s => machinery s = false)
    (main (P:=sample_platform) (L:=sample_libc) (R:=sample_receiver)
       wrong_invocation sample_world).
Proof.
  apply (main_usage_error (P:=sample_platform) (L:=sample_libc) (R:=sample_receiver)
           wrong_invocation sample_world).
  evaluate.
Defined.

(** X13 on the sample command line. *)
Lemma configure_valid_witness :
  exists url path,
    server_url sample_locals = Some url /\
    (prefix "http://" url = true \/ prefix "https://" url = true) /\
    Some "f007th-send.log" = Some path /\ path <> EmptyString /\
    1 <= 17 <= 53.
Proof.
  apply (configure_valid (P:=sample_platform) (L:=sample_libc) (Msg:=SampleMessage)
           sample_invocation
           sample_locals).
  evaluate.
Defined.

(** X14 on the sample command line: the argument wins over [-s]. *)
Lemma configure_server_url_witness :
  Some sample_url = Some sample_url.
Proof.
  apply (configure_server_url (P:=sample_platform) (L:=sample_libc) (Msg:=SampleMessage)
           sample_invocation
           sample_locals).
  evaluate.
Defined.

(** X15 on [-t INFLUXDB]. *)
Lemma server_type_option_witness :
  match option_case (P:=sample_platform) (L:=sample_libc) (Msg:=SampleMessage)
          (getopt "t" "INFLUXDB") initial_locals with
  | inr l' =>
      (lowercase "INFLUXDB" = "rest" /\ server_type l' = REST) \/
      (lowercase "INFLUXDB" = "influxdb" /\ server_type l' = InfluxDB)
  | inl _ => lowercase "INFLUXDB" <> "rest" /\ lowercase "INFLUXDB" <> "influxdb"
  end.
Proof.
  apply (server_type_option (P:=sample_platform) (L:=sample_libc) (Msg:=SampleMessage)
           (getopt "t" "INFLUXDB") initial_locals).
  - evaluate.
  - evaluate.
Defined.

(** X16 on the options of the sample command line: [-V] has set
    [VERBOSITY_PRINT_DETAILS]. *)
Lemma options_accumulate_witness :
  flag 118 (@VERBOSITY_PRINT_DETAILS sample_platform) = true.
Proof.
  destruct (options_accumulate (P:=sample_platform) (L:=sample_libc) (Msg:=SampleMessage)
              (getopt_long sample_invocation) initial_locals
              {| log_file_path := None; server_url := Some "http://other/";
                 gpio := 17; server_type := InfluxDB; verbosity := 118;
                 changes_only := false |}) as (_ & _ & H); [evaluate|].
  destruct (H (getopt "V" EmptyString)) as (_ & _ & _ & HV); [evaluate; auto 10|].
  apply HV; [reflexivity|evaluate; auto 10|evaluate].
Defined.

(** X17 on the sample command line: the one transfer goes to the URL given as
    the argument. *)
Lemma main_urls_witness :
  (exists l, configure (P:=sample_platform) (L:=sample_libc) sample_invocation = inr l /\
             server_url l = Some sample_url) /\
  (prefix "http://" sample_url = true \/ prefix "https://" sample_url = true).
Proof.
  apply (main_urls (P:=sample_platform) (L:=sample_libc) (R:=sample_receiver)
           sample_invocation sample_world sample_url).
  vm_compute. repeat (first [left; reflexivity | right]).
Defined.
